(** * The response extraction and salvage pipeline of the PDF statement service

    A shallow embedding of [src/server.js]: the recursive text collector
    [collectTextPieces], the JSON salvage heuristics of the [/process-pdf]
    handler, and the handler itself with the effects it performs (encoding the
    upload, the upstream call, the parse attempts, console output).

    JavaScript strings are sequences of UTF-16 code units, modelled as lists of
    [N].  The values exchanged with the upstream service are JSON values;
    [JSON.parse] is modelled by a recursive-descent parser for the JSON grammar
    of ECMA-404 with the object construction order of ECMAScript. *)

From Stdlib Require Import String Ascii DecimalString List ZArith NArith Lia Bool PeanoNat.
Import ListNotations.

Local Open Scope Z_scope.

(* ================================================================= *)
(** ** Strings *)

Definition char16 := N.
Definition jsstring := list char16.

(** A string literal of the development read as a JavaScript string. *)
Definition str (s : string) : jsstring :=
  map N_of_ascii (list_ascii_of_string s).

(** The same, with every apostrophe read as a double quote (JSON text is easier
    to write that way). *)
Definition jsq (s : string) : jsstring :=
  map (fun c => if N.eqb c 39 then 34%N else c) (str s).

Definition LBRACE : char16 := 123%N.   (* left brace *)
Definition RBRACE : char16 := 125%N.   (* right brace *)
Definition NEWLINE : char16 := 10%N.   (* line feed *)

Definition jsstring_eqb (a b : jsstring) : bool :=
  if list_eq_dec N.eq_dec a b then true else false.

(** [s.indexOf(c)] for a one-character search string: the index of the first
    occurrence, or -1. *)
Fixpoint indexOf_from (s : jsstring) (c : char16) (i : Z) : Z :=
  match s with
  | [] => -1
  | x :: r => if N.eqb x c then i else indexOf_from r c (i + 1)
  end.

Definition indexOf (s : jsstring) (c : char16) : Z := indexOf_from s c 0.

(** [s.lastIndexOf(c)]: the index of the last occurrence, or -1. *)
Fixpoint lastIndexOf_from (s : jsstring) (c : char16) (i found : Z) : Z :=
  match s with
  | [] => found
  | x :: r => lastIndexOf_from r c (i + 1) (if N.eqb x c then i else found)
  end.

Definition lastIndexOf (s : jsstring) (c : char16) : Z :=
  lastIndexOf_from s c 0 (-1).

(** [s.slice(from, to)]: negative indices count from the end, both are clamped
    to the string, and an empty span gives the empty string. *)
Definition clamp_index (len i : Z) : Z :=
  if i <? 0 then Z.max (len + i) 0 else Z.min i len.

Definition slice (s : jsstring) (from to : Z) : jsstring :=
  let len := Z.of_nat (length s) in
  let k := clamp_index len from in
  let final := clamp_index len to in
  firstn (Z.to_nat (final - k)) (skipn (Z.to_nat k) s).

(** White space and line terminators, as [String.prototype.trim] strips them. *)
Definition is_trim_space (c : char16) : bool :=
  ((9 <=? c) && (c <=? 13) || (c =? 32) || (c =? 160) || (c =? 5760)
   || (8192 <=? c) && (c <=? 8202) || (c =? 8232) || (c =? 8233)
   || (c =? 8239) || (c =? 8287) || (c =? 12288) || (c =? 65279))%N.

Fixpoint trimStart (s : jsstring) : jsstring :=
  match s with
  | c :: r => if is_trim_space c then trimStart r else s
  | [] => []
  end.

Definition trim (s : jsstring) : jsstring :=
  rev (trimStart (rev (trimStart s))).

(** [pieces.join(sep)] on an array of strings. *)
Fixpoint join (sep : jsstring) (pieces : list jsstring) : jsstring :=
  match pieces with
  | [] => []
  | [p] => p
  | p :: rest => p ++ sep ++ join sep rest
  end.

(** The regular expression [/text|content|message|output/i] of the collector.
    Without the [u] flag, ignoring case pairs an ASCII letter only with its
    other case: a pattern letter matches itself and its upper-case form. *)
Definition char_eq_ci (pat c : char16) : bool :=
  (N.eqb c pat || N.eqb c (pat - 32))%N.

Fixpoint starts_with_ci (pat s : jsstring) : bool :=
  match pat, s with
  | [], _ => true
  | _ :: _, [] => false
  | p :: pat', c :: s' => char_eq_ci p c && starts_with_ci pat' s'
  end.

Fixpoint contains_ci (pat s : jsstring) : bool :=
  starts_with_ci pat s ||
  match s with
  | [] => false
  | _ :: s' => contains_ci pat s'
  end.

Definition text_key_words : list jsstring :=
  [str "text"; str "content"; str "message"; str "output"].

Definition text_key_test (k : jsstring) : bool :=
  existsb (fun w => contains_ci w k) text_key_words.

(* ================================================================= *)
(** ** JSON values *)

(** The values [JSON.parse] produces.  A number keeps the text of its literal
    (the engine holds the nearest double); an object lists its properties in
    the order [Object.keys] enumerates them. *)
Unset Elimination Schemes.
Inductive Json : Type :=
| JNull
| JBool (b : bool)
| JNumber (literal : jsstring)
| JString (s : jsstring)
| JArray (els : list Json)
| JObject (props : list (jsstring * Json)).
Set Elimination Schemes.

(** Induction on a JSON value, with the property available for every element
    of an array and for every property value of an object. *)
Definition Json_ind (P : Json -> Prop)
  (fnull : P JNull)
  (fbool : forall b, P (JBool b))
  (fnumber : forall literal, P (JNumber literal))
  (fstring : forall s, P (JString s))
  (farray : forall els, Forall P els -> P (JArray els))
  (fobject : forall props, Forall (fun kv => P (snd kv)) props -> P (JObject props))
  : forall v, P v :=
  fix F (v : Json) : P v :=
    match v with
    | JNull => fnull
    | JBool b => fbool b
    | JNumber literal => fnumber literal
    | JString s => fstring s
    | JArray els =>
        farray els
          ((fix G (l : list Json) : Forall P l :=
              match l with
              | [] => Forall_nil P
              | x :: r => Forall_cons x (F x) (G r)
              end) els)
    | JObject props =>
        fobject props
          ((fix G (l : list (jsstring * Json)) : Forall (fun kv => P (snd kv)) l :=
              match l with
              | [] => Forall_nil _
              | kv :: r => Forall_cons kv (F (snd kv)) (G r)
              end) props)
    end.

Definition is_digit (c : char16) : bool := ((48 <=? c) && (c <=? 57))%N.

Definition digits_value (ds : jsstring) : Z :=
  fold_left (fun acc c => 10 * acc + Z.of_N (c - 48)) (filter is_digit ds) 0.

Definition is_exp_mark (c : char16) : bool := (N.eqb c 101 || N.eqb c 69)%N.

Fixpoint before_mark (p : char16 -> bool) (s : jsstring) : jsstring :=
  match s with
  | [] => []
  | c :: r => if p c then [] else c :: before_mark p r
  end.

Fixpoint after_mark (p : char16 -> bool) (s : jsstring) : jsstring :=
  match s with
  | [] => []
  | c :: r => if p c then r else after_mark p r
  end.

(** Whether the double nearest to a number literal is zero: the digits are all
    zero, or the value is at most 2^-1075 (half the least subnormal, which
    rounds to even). *)
Definition number_is_zero (literal : jsstring) : bool :=
  let mantissa := before_mark is_exp_mark literal in
  let exponent := after_mark is_exp_mark literal in
  let d := digits_value mantissa in
  let fraclen := Z.of_nat (length (filter is_digit (after_mark (N.eqb 46) mantissa))) in
  let e := digits_value exponent in
  let e := if existsb (N.eqb 45) exponent then - e else e in
  let scale := e - fraclen in
  (d =? 0) || ((scale <? 0) && (d * 2 ^ 1075 <=? 10 ^ (- scale))).

(** JavaScript truthiness ([!v] is its negation). *)
Definition truthy (v : Json) : bool :=
  match v with
  | JNull => false
  | JBool b => b
  | JNumber literal => negb (number_is_zero literal)
  | JString s => match s with [] => false | _ => true end
  | JArray _ => true
  | JObject _ => true
  end.

Fixpoint lookup (k : jsstring) (props : list (jsstring * Json)) : option Json :=
  match props with
  | [] => None
  | (k', v) :: rest => if jsstring_eqb k' k then Some v else lookup k rest
  end.

(* ================================================================= *)
(** ** The text collector (server.js, lines 34-55) *)

(** [out] is the array the caller passes and every call pushes onto; it is
    threaded through the traversal. *)
Fixpoint collectTextPieces (obj : Json) (out : list jsstring) : list jsstring :=
  if negb (truthy obj) then out else
  match obj with
  | JString s => out ++ [s]
  | JArray els => fold_left (fun out el => collectTextPieces el out) els out
  | JObject props =>
      fold_left
        (fun out kv =>
           let k := fst kv in
           let v := snd kv in
           collectTextPieces v
             (match v with
              | JString s => if text_key_test k then out ++ [s] else out
              | _ => out
              end))
        props out
  | _ => out
  end.

(* ================================================================= *)
(** ** JSON.parse *)

(** A failed parse throws a [SyntaxError]; its message is the engine's, a
    function of the rejected text, and is represented by that text. *)
Record SyntaxError : Type := { rejected : jsstring }.

Inductive Completion (A : Type) : Type :=
| Normal (v : A)
| Throw (e : SyntaxError).
Arguments Normal {A} v.
Arguments Throw {A} e.

Definition QUOTE : char16 := 34%N.
Definition BACKSLASH : char16 := 92%N.

(** JSON white space: tab, line feed, carriage return, space. *)
Definition is_json_ws (c : char16) : bool :=
  (N.eqb c 9 || N.eqb c 10 || N.eqb c 13 || N.eqb c 32)%N.

Fixpoint skip_ws (s : jsstring) : jsstring :=
  match s with
  | c :: r => if is_json_ws c then skip_ws r else s
  | [] => []
  end.

Definition hex_val (c : char16) : option N :=
  if is_digit c then Some (c - 48)%N
  else if ((97 <=? c) && (c <=? 102))%N then Some (c - 87)%N
  else if ((65 <=? c) && (c <=? 70))%N then Some (c - 55)%N
  else None.

Definition hex4 (a b c d : char16) : option char16 :=
  match hex_val a, hex_val b, hex_val c, hex_val d with
  | Some x, Some y, Some z, Some w => Some (((x * 16 + y) * 16 + z) * 16 + w)%N
  | _, _, _, _ => None
  end.

(** The character a one-letter escape stands for. *)
Definition simple_escape (e : char16) : option char16 :=
  if N.eqb e 34 then Some 34%N          (* quotation mark *)
  else if N.eqb e 92 then Some 92%N     (* reverse solidus *)
  else if N.eqb e 47 then Some 47%N     (* solidus *)
  else if N.eqb e 98 then Some 8%N      (* b: backspace *)
  else if N.eqb e 102 then Some 12%N    (* f: form feed *)
  else if N.eqb e 110 then Some 10%N    (* n: line feed *)
  else if N.eqb e 114 then Some 13%N    (* r: carriage return *)
  else if N.eqb e 116 then Some 9%N     (* t: tab *)
  else None.

(** The characters of a string literal after its opening quote: the string's
    value and the text after the closing quote. *)
Fixpoint parse_string_body (s acc : jsstring) : option (jsstring * jsstring) :=
  match s with
  | [] => None
  | c :: r =>
      if N.eqb c QUOTE then Some (acc, r)
      else if N.eqb c BACKSLASH then
        match r with
        | [] => None
        | e :: r' =>
            if N.eqb e 117 then
              match r' with
              | h1 :: h2 :: h3 :: h4 :: r'' =>
                  match hex4 h1 h2 h3 h4 with
                  | Some u => parse_string_body r'' (acc ++ [u])
                  | None => None
                  end
              | _ => None
              end
            else
              match simple_escape e with
              | Some x => parse_string_body r' (acc ++ [x])
              | None => None
              end
        end
      else if (c <? 32)%N then None
      else parse_string_body r (acc ++ [c])
  end.

Fixpoint span_digits (s : jsstring) : jsstring * jsstring :=
  match s with
  | c :: r =>
      if is_digit c then let (ds, rest) := span_digits r in (c :: ds, rest)
      else ([], s)
  | [] => ([], [])
  end.

(** The integer part of a number: a single 0, or a non-zero digit and more. *)
Definition parse_int (s : jsstring) : option (jsstring * jsstring) :=
  match s with
  | d :: r =>
      if N.eqb d 48 then Some ([d], r)
      else if is_digit d then let (ds, rest) := span_digits r in Some (d :: ds, rest)
      else None
  | [] => None
  end.

(** An optional fraction: a point and at least one digit. *)
Definition parse_frac (s : jsstring) : option (jsstring * jsstring) :=
  match s with
  | c :: r =>
      if N.eqb c 46 then
        match span_digits r with
        | ([], _) => None
        | (ds, rest) => Some (c :: ds, rest)
        end
      else Some ([], s)
  | [] => Some ([], s)
  end.

(** An optional exponent: e or E, an optional sign, at least one digit. *)
Definition parse_exp (s : jsstring) : option (jsstring * jsstring) :=
  match s with
  | c :: r =>
      if is_exp_mark c then
        let (sign, r1) :=
          match r with
          | g :: r' => if (N.eqb g 43 || N.eqb g 45)%N then ([g], r') else ([], r)
          | [] => ([], r)
          end in
        match span_digits r1 with
        | ([], _) => None
        | (ds, rest) => Some (c :: sign ++ ds, rest)
        end
      else Some ([], s)
  | [] => Some ([], s)
  end.

Definition parse_number (s : jsstring) : option (jsstring * jsstring) :=
  let (sign, s1) :=
    match s with
    | c :: r => if N.eqb c 45 then ([c], r) else ([], s)
    | [] => ([], s)
    end in
  match parse_int s1 with
  | None => None
  | Some (int, s2) =>
      match parse_frac s2 with
      | None => None
      | Some (frac, s3) =>
          match parse_exp s3 with
          | None => None
          | Some (exp, s4) => Some (sign ++ int ++ frac ++ exp, s4)
          end
      end
  end.

(** [strip_prefix p s]: the text of [s] after [p], when [s] starts with [p]. *)
Fixpoint strip_prefix (p s : jsstring) : option jsstring :=
  match p, s with
  | [], _ => Some s
  | _ :: _, [] => None
  | a :: p', c :: s' => if N.eqb a c then strip_prefix p' s' else None
  end.

Definition parse_literal (s : jsstring) : option (Json * jsstring) :=
  match strip_prefix (str "true") s with
  | Some r => Some (JBool true, r)
  | None =>
      match strip_prefix (str "false") s with
      | Some r => Some (JBool false, r)
      | None =>
          match strip_prefix (str "null") s with
          | Some r => Some (JNull, r)
          | None => None
          end
      end
  end.

(** Property keys that are array indices (canonical decimal numerals below
    2^32 - 1) are enumerated first, in ascending order; the others follow in
    the order they were created.  Defining a key again replaces its value and
    keeps its place. *)
Definition array_index (k : jsstring) : option Z :=
  match k with
  | [] => None
  | c :: r =>
      if forallb is_digit k && (negb (N.eqb c 48) || match r with [] => true | _ => false end)
      then (if digits_value k <? 4294967295 then Some (digits_value k) else None)
      else None
  end.

Definition has_key (k : jsstring) (props : list (jsstring * Json)) : bool :=
  existsb (fun kv => jsstring_eqb (fst kv) k) props.

Definition update_key (k : jsstring) (v : Json) (props : list (jsstring * Json))
  : list (jsstring * Json) :=
  map (fun kv => if jsstring_eqb (fst kv) k then (k, v) else kv) props.

Fixpoint insert_index (i : Z) (k : jsstring) (v : Json) (props : list (jsstring * Json))
  : list (jsstring * Json) :=
  match props with
  | [] => [(k, v)]
  | kv :: rest =>
      match array_index (fst kv) with
      | Some j => if j <? i then kv :: insert_index i k v rest else (k, v) :: props
      | None => (k, v) :: props
      end
  end.

Definition define_property (k : jsstring) (v : Json) (props : list (jsstring * Json))
  : list (jsstring * Json) :=
  if has_key k props then update_key k v props
  else match array_index k with
       | Some i => insert_index i k v props
       | None => props ++ [(k, v)]
       end.

(** The value grammar.  [fuel] bounds the number of nested calls; every call
    is made on a text no longer than its caller's, and [JSON_parse] below
    supplies enough of it. *)
Fixpoint parse_value (fuel : nat) (s : jsstring) {struct fuel} : option (Json * jsstring) :=
  match fuel with
  | O => None
  | S fuel' =>
      match s with
      | [] => None
      | c :: r =>
          if N.eqb c LBRACE then
            match skip_ws r with
            | c2 :: r2 =>
                if N.eqb c2 RBRACE then Some (JObject [], r2)
                else parse_members fuel' (skip_ws r) []
            | [] => None
            end
          else if N.eqb c 91 then
            match skip_ws r with
            | c2 :: r2 =>
                if N.eqb c2 93 then Some (JArray [], r2)
                else parse_elements fuel' (skip_ws r) []
            | [] => None
            end
          else if N.eqb c QUOTE then
            match parse_string_body r [] with
            | Some (v, rest) => Some (JString v, rest)
            | None => None
            end
          else if (N.eqb c 45 || is_digit c)%N then
            match parse_number s with
            | Some (literal, rest) => Some (JNumber literal, rest)
            | None => None
            end
          else parse_literal s
      end
  end

with parse_elements (fuel : nat) (s : jsstring) (acc : list Json) {struct fuel}
  : option (Json * jsstring) :=
  match fuel with
  | O => None
  | S fuel' =>
      match parse_value fuel' s with
      | None => None
      | Some (v, r) =>
          match skip_ws r with
          | c :: r' =>
              if N.eqb c 44 then parse_elements fuel' (skip_ws r') (acc ++ [v])
              else if N.eqb c 93 then Some (JArray (acc ++ [v]), r')
              else None
          | [] => None
          end
      end
  end

with parse_members (fuel : nat) (s : jsstring) (acc : list (jsstring * Json)) {struct fuel}
  : option (Json * jsstring) :=
  match fuel with
  | O => None
  | S fuel' =>
      match s with
      | [] => None
      | q :: r =>
          if N.eqb q QUOTE then
            match parse_string_body r [] with
            | None => None
            | Some (k, r1) =>
                match skip_ws r1 with
                | [] => None
                | colon :: r2 =>
                    if N.eqb colon 58 then
                      match parse_value fuel' (skip_ws r2) with
                      | None => None
                      | Some (v, r3) =>
                          match skip_ws r3 with
                          | c :: r4 =>
                              if N.eqb c 44
                              then parse_members fuel' (skip_ws r4) (define_property k v acc)
                              else if N.eqb c RBRACE
                              then Some (JObject (define_property k v acc), r4)
                              else None
                          | [] => None
                          end
                      end
                    else None
                end
            end
          else None
      end
  end.

Definition parse_fuel (s : jsstring) : nat := 2 * List.length s + 1.

(** [JSON.parse(text)]: one value, white space around it, nothing else. *)
Definition JSON_parse (text : jsstring) : Completion Json :=
  let s := skip_ws text in
  match parse_value (parse_fuel s) s with
  | Some (v, rest) =>
      match skip_ws rest with
      | [] => Normal v
      | _ :: _ => Throw {| rejected := text |}
      end
  | None => Throw {| rejected := text |}
  end.

(* ================================================================= *)
(** ** The request, the environment and the upstream service *)

Record File : Type := { buffer : list N }.

(** [req.file] is set by the upload middleware, or left undefined. *)
Record Request : Type := { file : option File }.

(** The variables of [process.env] the handler reads. *)
Record Env : Type := {
  GEMINI_API_KEY : option jsstring;
  GEMINI_MODEL : option jsstring;
  MAX_OUTPUT_TOKENS : option jsstring;
  AXIOS_TIMEOUT_MS : option jsstring
}.

(** [v || d] on an environment variable: unset and empty are falsy. *)
Definition or_default (v : option jsstring) (d : jsstring) : jsstring :=
  match v with
  | Some (c :: r) => c :: r
  | _ => d
  end.

(** What [parseInt] returns. *)
Inductive IntOrNaN : Type :=
| Int (n : Z)
| NaN.

(** [parseInt(s, 10)]: leading white space, a sign, then the longest run of
    digits. *)
Definition parseInt10 (s : jsstring) : IntOrNaN :=
  let s := trimStart s in
  let (neg, s) :=
    match s with
    | c :: r => if N.eqb c 45 then (true, r) else if N.eqb c 43 then (false, r) else (false, s)
    | [] => (false, s)
    end in
  match fst (span_digits s) with
  | [] => NaN
  | ds => Int (if neg then - digits_value ds else digits_value ds)
  end.

(** [buffer.toString('base64')]. *)
Definition base64_char (n : N) : char16 :=
  (if n <? 26 then n + 65
   else if n <? 52 then n + 71
   else if n <? 62 then n - 4
   else if n =? 62 then 43 else 47)%N.

Fixpoint toBase64 (bytes : list N) : jsstring :=
  match bytes with
  | [] => []
  | [a] =>
      [base64_char (a / 4); base64_char ((a mod 4) * 16); 61; 61]%N
  | [a; b] =>
      [base64_char (a / 4); base64_char ((a mod 4) * 16 + b / 16);
       base64_char ((b mod 16) * 4); 61]%N
  | a :: b :: c :: rest =>
      ([base64_char (a / 4); base64_char ((a mod 4) * 16 + b / 16);
        base64_char ((b mod 16) * 4 + c / 64); base64_char (c mod 64)]%N)
      ++ toBase64 rest
  end.

(** The instruction block that is serialized into the third part of the
    request (server.js, lines 79-102); the variants of the handler differ in
    the wording of the instructions. *)
Definition instructions_and_schema (instructions : jsstring) : Json :=
  JObject
    [(str "instructions", JString instructions);
     (str "schema",
      JObject
        [(str "statement_info",
          JObject
            [(str "billing_start_cycle", JString (str "mm/dd/yyyy"));
             (str "billing_end_cycle", JString (str "mm/dd/yyyy"));
             (str "account_holder_name", JString []);
             (str "account_number", JString []);
             (str "account_holder_address", JString []);
             (str "bank_name", JString [])]);
         (str "account_summary",
          JObject
            [(str "total_withdrawals", JString []);
             (str "total_deposits", JString [])]);
         (str "transactions",
          JArray
            [JObject
               [(str "date", JString []);
                (str "amount", JString []);
                (str "description", JString []);
                (str "daily_balance", JString []);
                (str "transaction_id", JString [])]])])].

Inductive Part : Type :=
| TextPart (text : jsstring)
| InlineData (mime_type data : jsstring).

Record GenerationConfig : Type := {
  maxOutputTokens : IntOrNaN;
  temperature : jsstring;
  responseMimeType : jsstring
}.

Record Payload : Type := {
  parts : list Part;
  generationConfig : GenerationConfig
}.

(** The options of the call: the content type header, and a timeout when
    one is given. *)
Record AxiosConfig : Type := {
  content_type : jsstring;
  timeout : option IntOrNaN
}.

(** How [axios.post] settles: the promise resolves with the response body
    ([response.data], already parsed), or rejects with an error that carries
    the body of a non-success response when there is one, and a message. *)
Inductive AxiosResult : Type :=
| Resolved (data : Json)
| Rejected (response_data : option Json) (message : jsstring).

Definition Upstream : Type := jsstring -> Payload -> AxiosConfig -> AxiosResult.

(* ================================================================= *)
(** ** What the handler does and what it answers *)

Inductive Level : Type := LOG | WARN | ERROR.

Inductive LogArg : Type :=
| ArgText (s : jsstring)
| ArgJson (v : Json)
| ArgKeys (ks : list jsstring)
| ArgCount (n : nat)
| ArgError (e : SyntaxError)
| ArgTypeError.

Inductive Event : Type :=
| EvToBase64 (bytes : list N)
| EvAxiosPost (url : jsstring) (payload : Payload) (config : AxiosConfig)
| EvJSONParse (text : jsstring)
| EvConsole (level : Level) (label : jsstring) (args : list LogArg).

(** The bodies [res.json] sends. *)
Inductive Body : Type :=
| ExtractedJSON (v : Json)
| ErrorOnly (error : jsstring)
| NoCandidate (error : jsstring) (rawResponse : Json)
| SalvageFailed (error : jsstring) (message : SyntaxError) (rawPreview : jsstring)
    (piecesCollected : nat) (usageMetadata : Json) (candidatePreview : jsstring)
| UpstreamFailed (error : jsstring) (detail : Json + jsstring).

Record Response : Type := { status : Z; body : Body }.

(** Computations that record the effects they perform, in order. *)
Definition M (A : Type) : Type := A * list Event.

Definition ret {A : Type} (a : A) : M A := (a, []).

Definition bind {A B : Type} (m : M A) (k : A -> M B) : M B :=
  let (a, evs) := m in
  let (b, evs') := k a in
  (b, evs ++ evs').

Definition emit (e : Event) : M unit := (tt, [e]).

Definition console (level : Level) (label : jsstring) (args : list LogArg) : M unit :=
  emit (EvConsole level label args).

Declare Scope effect_scope.
Delimit Scope effect_scope with effect.
Notation "x <- m ;; k" := (bind m (fun x => k))
  (at level 61, m at next level, right associativity) : effect_scope.
Notation "m ;; k" := (bind m (fun _ => k))
  (at level 61, right associativity) : effect_scope.
Local Open Scope effect_scope.

(** One call of [JSON.parse]. *)
Definition try_JSON_parse (text : jsstring) : M (Completion Json) :=
  emit (EvJSONParse text) ;; ret (JSON_parse text).

(** Property access on a response value.  Only objects have the properties
    the handler asks for; on any other value, and on a missing key, the
    result is undefined ([None]). *)
Definition get (v : Json) (k : jsstring) : option Json :=
  match v with
  | JObject props => lookup k props
  | _ => None
  end.

(** [v?.[0]]: the first element of an array, the first character of a
    string, the property named 0 of an object. *)
Definition index0 (v : Json) : option Json :=
  match v with
  | JArray (x :: _) => Some x
  | JString (c :: _) => Some (JString [c])
  | JObject props => lookup (str "0") props
  | _ => None
  end.

(** [a || b] on possibly undefined values. *)
Definition or_else (a b : option Json) : option Json :=
  match a with
  | Some v => if truthy v then a else b
  | None => b
  end.

(** The decimal numeral of an index. *)
Definition decimal (n : nat) : jsstring :=
  str (NilEmpty.string_of_uint (Nat.to_uint n)).

(** [Object.keys]: the property names of an object, the indices of an array
    or of a string, nothing for the other values. *)
Definition Object_keys (v : Json) : list jsstring :=
  match v with
  | JObject props => map fst props
  | JArray els => map decimal (seq 0 (List.length els))
  | JString s => map decimal (seq 0 (List.length s))
  | _ => []
  end.

(** [v || {}]. *)
Definition or_empty_object (v : Json) : Json :=
  if truthy v then v else JObject [].

(* ================================================================= *)
(** ** The [/process-pdf] handler (server.js, lines 58-196) *)

Section Handler.

(** [JSON.stringify] is the engine's; the handler only cuts previews out of
    what it returns. *)
Variable JSON_stringify : Json -> jsstring.

(** Lines 144-176: the direct parse and the two salvage heuristics.  The
    result is the first value a parse returned, or the error of the direct
    parse when every attempt failed. *)
Definition parse_with_salvage (joinedText : jsstring) : M (Completion Json) :=
  r <- try_JSON_parse joinedText ;;
  match r with
  | Normal extractedJSON => ret (Normal extractedJSON)
  | Throw parseErr =>
      console WARN (str "Primary JSON.parse failed:") [ArgError parseErr] ;;
      let firstBrace := indexOf joinedText LBRACE in
      let lastBrace := lastIndexOf joinedText RBRACE in
      brace <-
        (if negb (firstBrace =? -1) && negb (lastBrace =? -1) && (lastBrace >? firstBrace)
         then
           let candidateJson := slice joinedText firstBrace (lastBrace + 1) in
           r1 <- try_JSON_parse candidateJson ;;
           match r1 with
           | Normal extractedJSON =>
               console LOG (str "Salvage parse succeeded (brace heuristic).") [] ;;
               ret (Some extractedJSON)
           | Throw braceErr =>
               console WARN (str "Brace-salvage parse failed:") [ArgError braceErr] ;;
               ret None
           end
         else ret None) ;;
      match brace with
      | Some extractedJSON => ret (Normal extractedJSON)
      | None =>
          let lastClose := lastIndexOf joinedText RBRACE in
          close <-
            (if lastClose >? 0
             then
               let salvage := slice joinedText 0 (lastClose + 1) in
               r2 <- try_JSON_parse salvage ;;
               match r2 with
               | Normal extractedJSON =>
                   console LOG (str "Salvage parse succeeded (last-close heuristic).") [] ;;
                   ret (Some extractedJSON)
               | Throw salvageErr =>
                   console WARN (str "Last-close-salvage parse also failed:")
                     [ArgError salvageErr] ;;
                   ret None
               end
             else ret None) ;;
          match close with
          | Some extractedJSON => ret (Normal extractedJSON)
          | None => ret (Throw parseErr)
          end
      end
  end.

(** [response.data?.candidates?.[0]]. *)
Definition first_candidate (data : Json) : option Json :=
  match get data (str "candidates") with
  | Some cs => index0 cs
  | None => None
  end.

(** [response.data?.usageMetadata || response.data?.usage || null]. *)
Definition usage_of (data : Json) : Json :=
  match or_else (or_else (get data (str "usageMetadata")) (get data (str "usage")))
          (Some JNull) with
  | Some u => u
  | None => JNull
  end.

(** Lines 122-187: what the handler does once the upstream call has resolved
    with [data]. *)
Definition on_response (data : Json) : M Response :=
  console LOG (str "--- GEMINI RESPONSE KEYS ---")
    [ArgKeys (Object_keys (or_empty_object data))] ;;
  console LOG (str "--- RESPONSE PREVIEW (first 40k chars) ---" ++ [NEWLINE])
    [ArgText (slice (JSON_stringify (or_empty_object data)) 0 40000)] ;;
  match first_candidate data with
  | None =>
      console ERROR (str "No candidate returned from Gemini:") [ArgJson data] ;;
      ret {| status := 500;
             body := NoCandidate (str "No candidate returned from Gemini") data |}
  | Some candidate =>
      if negb (truthy candidate) then
        console ERROR (str "No candidate returned from Gemini:") [ArgJson data] ;;
        ret {| status := 500;
               body := NoCandidate (str "No candidate returned from Gemini") data |}
      else
        let textPieces := collectTextPieces candidate [] in
        let textPieces := collectTextPieces data textPieces in
        let joinedText := trim (join [NEWLINE] textPieces) in
        console LOG (str "--- EXTRACTOR: text pieces collected =")
          [ArgCount (List.length textPieces)] ;;
        console LOG (str "--- EXTRACTOR: joinedText length (chars) =")
          [ArgCount (List.length joinedText)] ;;
        let usage := usage_of data in
        console LOG (str "--- GEMINI: usageMetadata =")
          [match usage with
           | JNull => ArgText (str "no usage metadata found")
           | _ => ArgJson usage
           end] ;;
        r <- parse_with_salvage joinedText ;;
        match r with
        | Normal extractedJSON =>
            ret {| status := 200; body := ExtractedJSON extractedJSON |}
        | Throw parseErr =>
            ret {| status := 500;
                   body := SalvageFailed
                             (str "Failed to parse JSON from Gemini response")
                             parseErr
                             (slice joinedText 0 32000)
                             (List.length textPieces)
                             usage
                             (slice (JSON_stringify candidate) 0 32000) |}
        end
  end.

(** Lines 74-110: the request sent upstream. *)
Definition build_payload (instructions pdfBase64 : jsstring) (MAX_OUTPUT_TOKENS : IntOrNaN)
  : Payload :=
  {| parts :=
       [TextPart (str "Extract structured data from this PDF according to the provided schema.");
        InlineData (str "application/pdf") pdfBase64;
        TextPart (JSON_stringify (instructions_and_schema instructions))];
     generationConfig :=
       {| maxOutputTokens := MAX_OUTPUT_TOKENS;
          temperature := str "0.1";
          responseMimeType := str "application/json" |} |}.

Definition server_instructions : jsstring :=
  str "Extract the following fields only if present in the document. Ensure you process all pages of the document to extract all transactions. If a field is missing, return an empty string or null. Do not invent data. Represent withdrawals as negative amounts.".

Definition process_pdf (env : Env) (axios_post : Upstream) (req : Request) : M Response :=
  match file req with
  | None =>
      ret {| status := 400; body := ErrorOnly (str "No PDF file uploaded.") |}
  | Some f =>
      let pdfBuffer := buffer f in
      emit (EvToBase64 pdfBuffer) ;;
      let pdfBase64 := toBase64 pdfBuffer in
      match GEMINI_API_KEY env with
      | None | Some [] =>
          ret {| status := 500; body := ErrorOnly (str "GEMINI_API_KEY not set in .env") |}
      | Some key =>
          let MODEL := or_default (GEMINI_MODEL env) (str "gemini-2.5-flash") in
          let MAX_OUTPUT_TOKENS :=
            parseInt10 (or_default (MAX_OUTPUT_TOKENS env) (str "65535")) in
          let payload := build_payload server_instructions pdfBase64 MAX_OUTPUT_TOKENS in
          let axiosConfig :=
            {| content_type := str "application/json";
               timeout :=
                 Some (parseInt10 (or_default (AXIOS_TIMEOUT_MS env) (str "220000"))) |} in
          let url :=
            str "https://generativelanguage.googleapis.com/v1beta/models/" ++ MODEL
            ++ str ":generateContent?key=" ++ key in
          emit (EvAxiosPost url payload axiosConfig) ;;
          match axios_post url payload axiosConfig with
          | Resolved data => on_response data
          | Rejected response_data message =>
              console ERROR (str "Error processing PDF with Gemini:")
                [match or_else response_data None with
                 | Some d => ArgJson d
                 | None => ArgText message
                 end] ;;
              ret {| status := 500;
                     body := UpstreamFailed (str "Failed to process PDF with Gemini AI.")
                               (match response_data with
                                | Some JNull | None => inr message
                                | Some d => inl d
                                end) |}
          end
      end
  end.

(** *** The earlier variants of the handler (src/unnamed/part_000 to part_002)

    They read the text of the first part of the first candidate and parse it,
    without collecting and without salvage.  They differ in the model they
    name, in the wording of the instructions, and in whether they log the raw
    text. *)

Record Variant : Type := {
  variant_model : jsstring;
  variant_instructions : jsstring;
  variant_logs_raw_text : bool
}.

Definition part_000 : Variant :=
  {| variant_model := str "gemini-2.5-flash";
     variant_instructions :=
       str "Extract the following fields only if present in the document. **Ensure you process all pages of the document to extract all transactions.** If a field is missing, return an empty string or null. Do not generate or assume any additional data. Ensure amounts for withdrawals are negative numbers.";
     variant_logs_raw_text := true |}.

Definition part_001 : Variant :=
  {| variant_model := str "gemini-1.5-flash";
     variant_instructions :=
       str "Extract the following fields only if present in the document. If a field is missing, return an empty string or null. Do not generate or assume any additional data. Ensure amounts for withdrawals are negative numbers.";
     variant_logs_raw_text := true |}.

Definition part_002 : Variant :=
  {| variant_model := str "gemini-1.5-flash";
     variant_instructions :=
       str "Extract the following fields only if present in the document. If a field is missing, return an empty string or null. Do not generate or assume any additional data. Ensure amounts for withdrawals are negative numbers.";
     variant_logs_raw_text := false |}.

(** The text a number is converted to is the engine's rendering of the
    nearest double. *)
Variable Number_toString : jsstring -> jsstring.

(** [ToString] on a value that may be undefined, as [JSON.parse] applies it to
    its argument. *)
Fixpoint ToString_value (v : Json) : jsstring :=
  match v with
  | JNull => str "null"
  | JBool true => str "true"
  | JBool false => str "false"
  | JNumber literal => Number_toString literal
  | JString s => s
  | JArray els =>
      join (str ",")
        (map (fun el => match el with JNull => [] | _ => ToString_value el end) els)
  | JObject _ => str "[object Object]"
  end.

Definition ToString (v : option Json) : jsstring :=
  match v with
  | Some j => ToString_value j
  | None => str "undefined"
  end.

(** Reading the property [k] of [v], for the names and indices the handlers
    read.  Reading from null throws a TypeError (the outer [None]); a missing
    property is undefined (the inner [None]). *)
Definition member (v : Json) (k : jsstring) : option (option Json) :=
  match v with
  | JNull => None
  | JObject props => Some (lookup k props)
  | JArray els =>
      Some (match array_index k with
            | Some i => nth_error els (Z.to_nat i)
            | None => None
            end)
  | JString s =>
      Some (match array_index k with
            | Some i =>
                match nth_error s (Z.to_nat i) with
                | Some c => Some (JString [c])
                | None => None
                end
            | None => None
            end)
  | JBool _ | JNumber _ => Some None
  end.

(** A chain of property reads; reading from undefined throws as well. *)
Fixpoint access (v : option Json) (path : list jsstring) : option (option Json) :=
  match path with
  | [] => Some v
  | k :: rest =>
      match v with
      | None => None
      | Some j =>
          match member j k with
          | None => None
          | Some r => access r rest
          end
      end
  end.

(** [response.data.candidates[0].content.parts[0].text]. *)
Definition text_part (data : Json) : option (option Json) :=
  access (Some data)
    [str "candidates"; str "0"; str "content"; str "parts"; str "0"; str "text"].

Definition process_pdf_direct (variant : Variant) (env : Env) (axios_post : Upstream)
    (req : Request) : M Response :=
  let failed :=
    {| status := 500; body := ErrorOnly (str "Failed to process PDF with Gemini AI.") |} in
  match file req with
  | None =>
      ret {| status := 400; body := ErrorOnly (str "No PDF file uploaded.") |}
  | Some f =>
      let pdfBuffer := buffer f in
      emit (EvToBase64 pdfBuffer) ;;
      let pdfBase64 := toBase64 pdfBuffer in
      let key :=
        match GEMINI_API_KEY env with
        | Some k => k
        | None => str "undefined"
        end in
      let payload := build_payload (variant_instructions variant) pdfBase64 (Int 8192) in
      let config := {| content_type := str "application/json"; timeout := None |} in
      let url :=
        str "https://generativelanguage.googleapis.com/v1beta/models/"
        ++ variant_model variant ++ str ":generateContent?key=" ++ key in
      emit (EvAxiosPost url payload config) ;;
      match axios_post url payload config with
      | Rejected response_data message =>
          console ERROR (str "Error processing PDF with Gemini:")
            [match or_else response_data None with
             | Some d => ArgJson d
             | None => ArgText message
             end] ;;
          ret failed
      | Resolved data =>
          match text_part data with
          | None =>
              console ERROR (str "Error processing PDF with Gemini:") [ArgTypeError] ;;
              ret failed
          | Some textContent =>
              (if variant_logs_raw_text variant then
                 console LOG (str "--- RAW RESPONSE FROM GEMINI ---") [] ;;
                 console LOG []
                   [match textContent with
                    | Some j => ArgJson j
                    | None => ArgText (str "undefined")
                    end] ;;
                 console LOG (str "---------------------------------") []
               else ret tt) ;;
              r <- try_JSON_parse (ToString textContent) ;;
              match r with
              | Normal extractedJSON =>
                  ret {| status := 200; body := ExtractedJSON extractedJSON |}
              | Throw error =>
                  console ERROR (str "Error processing PDF with Gemini:") [ArgError error] ;;
                  ret failed
              end
          end
      end
  end.

(** The salvage parser without its third strategy (lines 165-176 removed). *)
Definition parse_with_salvage_no_last_close (joinedText : jsstring) : M (Completion Json) :=
  r <- try_JSON_parse joinedText ;;
  match r with
  | Normal extractedJSON => ret (Normal extractedJSON)
  | Throw parseErr =>
      console WARN (str "Primary JSON.parse failed:") [ArgError parseErr] ;;
      let firstBrace := indexOf joinedText LBRACE in
      let lastBrace := lastIndexOf joinedText RBRACE in
      brace <-
        (if negb (firstBrace =? -1) && negb (lastBrace =? -1) && (lastBrace >? firstBrace)
         then
           let candidateJson := slice joinedText firstBrace (lastBrace + 1) in
           r1 <- try_JSON_parse candidateJson ;;
           match r1 with
           | Normal extractedJSON =>
               console LOG (str "Salvage parse succeeded (brace heuristic).") [] ;;
               ret (Some extractedJSON)
           | Throw braceErr =>
               console WARN (str "Brace-salvage parse failed:") [ArgError braceErr] ;;
               ret None
           end
         else ret None) ;;
      match brace with
      | Some extractedJSON => ret (Normal extractedJSON)
      | None => ret (Throw parseErr)
      end
  end.

End Handler.

(** The texts handed to [JSON.parse], in the order of the calls. *)
Fixpoint parse_attempts (evs : list Event) : list jsstring :=
  match evs with
  | [] => []
  | EvJSONParse text :: rest => text :: parse_attempts rest
  | _ :: rest => parse_attempts rest
  end.

(** The upstream calls performed. *)
Fixpoint upstream_calls (evs : list Event) : nat :=
  match evs with
  | [] => O
  | EvAxiosPost _ _ _ :: rest => S (upstream_calls rest)
  | _ :: rest => upstream_calls rest
  end.

(** The outcomes of a request, by the error taxonomy of the service. *)
Inductive Branch : Type :=
| Success (v : Json)
| ClientInputError
| ConfigurationError
| TransportError
| NoCandidateError
| SalvageExhaustedError.

Definition branch (r : Response) : Branch :=
  match body r with
  | ExtractedJSON v => Success v
  | ErrorOnly _ => if status r =? 400 then ClientInputError else ConfigurationError
  | NoCandidate _ _ => NoCandidateError
  | SalvageFailed _ _ _ _ _ _ => SalvageExhaustedError
  | UpstreamFailed _ _ => TransportError
  end.

(* ================================================================= *)
(** ** The salvage parser as the specification describes it *)

(** Positions are counted from 0; a character that does not occur has none. *)
Fixpoint first_position (c : char16) (s : jsstring) : option nat :=
  match s with
  | [] => None
  | x :: r =>
      if N.eqb x c then Some O
      else match first_position c r with
           | Some i => Some (S i)
           | None => None
           end
  end.

Fixpoint last_position (c : char16) (s : jsstring) : option nat :=
  match s with
  | [] => None
  | x :: r =>
      match last_position c r with
      | Some j => Some (S j)
      | None => if N.eqb x c then Some O else None
      end
  end.

(** The characters at positions [i] to [j], both included. *)
Definition inclusive_span (s : jsstring) (i j : nat) : jsstring :=
  firstn (j - i + 1) (skipn i s).

(** A strategy names the text it would parse, when it applies to the input. *)
Definition Strategy : Type := jsstring -> option jsstring.

Definition direct_parse : Strategy := fun text => Some text.

Definition outer_brace_extraction : Strategy := fun text =>
  match first_position LBRACE text, last_position RBRACE text with
  | Some i, Some j => if (i <? j)%nat then Some (inclusive_span text i j) else None
  | _, _ => None
  end.

Definition trailing_truncation_recovery : Strategy := fun text =>
  match last_position RBRACE text with
  | Some j => if (0 <? j)%nat then Some (inclusive_span text 0 j) else None
  | None => None
  end.

Definition salvage_strategies : list Strategy :=
  [direct_parse; outer_brace_extraction; trailing_truncation_recovery].

(** Strategies tried in order, stopping at the first success: the value
    found, if any, and the texts that were parsed on the way. *)
Fixpoint first_success (text : jsstring) (strategies : list Strategy)
  : option Json * list jsstring :=
  match strategies with
  | [] => (None, [])
  | s :: rest =>
      match s text with
      | None => first_success text rest
      | Some t =>
          match JSON_parse t with
          | Normal v => (Some v, [t])
          | Throw _ => let (r, tried) := first_success text rest in (r, t :: tried)
          end
      end
  end.

Definition value_of (r : Completion Json) : option Json :=
  match r with
  | Normal v => Some v
  | Throw _ => None
  end.

(** A strategy fails on a text when it does not apply or its parse throws. *)
Definition strategy_fails (text : jsstring) (s : Strategy) : Prop :=
  match s text with
  | None => True
  | Some t => value_of (JSON_parse t) = None
  end.

(** Two payloads that differ only in the subtree under [usageMetadata]. *)
Definition differ_only_in_usageMetadata (r1 r2 : Json) : Prop :=
  exists before after u1 u2,
    r1 = JObject (before ++ (str "usageMetadata", u1) :: after) /\
    r2 = JObject (before ++ (str "usageMetadata", u2) :: after).

(** A text without braces. *)
Definition brace_free (s : jsstring) : bool :=
  forallb (fun c => negb (N.eqb c LBRACE) && negb (N.eqb c RBRACE)) s.

(* ================================================================= *)
(** ** Sample inputs *)

(** The mapping of the collector example. *)
Definition output_nested_example : Json :=
  JObject [(str "output", JString (str "hello"));
           (str "nested", JObject [(str "text", JString (str "world"))])].

(** The response of the end-to-end scenario, with a small statement. *)
Definition scenario_text : jsstring :=
  jsq "{'statement_info':{},'transactions':[]}".

Definition scenario_statement : Json :=
  JObject [(str "statement_info", JObject []); (str "transactions", JArray [])].

Definition scenario_candidate : Json :=
  JObject
    [(str "content",
      JObject [(str "parts", JArray [JObject [(str "text", JString scenario_text)]])])].

Definition scenario_response : Json :=
  JObject [(str "candidates", JArray [scenario_candidate])].

(** A mock of the upstream service that answers every call with [data]. *)
Definition upstream_returning (data : Json) : Upstream :=
  fun _ _ _ => Resolved data.

(** A stand-in for the serializer where its output does not matter. *)
Definition opaque_stringify : Json -> jsstring := fun _ => str "[json]".

Definition sample_env : Env :=
  {| GEMINI_API_KEY := Some (str "secret");
     GEMINI_MODEL := None;
     MAX_OUTPUT_TOKENS := None;
     AXIOS_TIMEOUT_MS := None |}.

Definition sample_request : Request :=
  {| file := Some {| buffer := [37; 80; 68; 70]%N |} |}.

Definition no_file_request : Request := {| file := None |}.

(** A response whose candidate holds no text; all text comes from the
    [usageMetadata] subtree. *)
Definition usage_response (note : jsstring) : Json :=
  JObject
    ([(str "candidates", JArray [JObject [(str "index", JNumber (str "0"))]])]
     ++ (str "usageMetadata", JObject [(str "note", JString note)]) :: []).

Definition counters_response (total : jsstring) : Json :=
  JObject
    ([(str "candidates", JArray [JObject [(str "index", JNumber (str "0"))]])]
     ++ (str "usageMetadata", JObject [(str "totalTokenCount", JNumber total)]) :: []).

(** The response of the scenario with usage counters beside the candidates. *)
Definition scenario_usage : Json :=
  JObject [(str "promptTokenCount", JNumber (str "1200"));
           (str "totalTokenCount", JNumber (str "1500"))].

Definition scenario_response_with_usage : Json :=
  JObject [(str "candidates", JArray [scenario_candidate]);
           (str "usageMetadata", scenario_usage)].

(** A response whose [usageMetadata] is there but is the number 0, beside a
    [usage] property; nothing in it is text. *)
Definition zero_usage_response : Json :=
  JObject [(str "candidates", JArray [JObject [(str "index", JNumber (str "0"))]]);
           (str "usageMetadata", JNumber (str "0"));
           (str "usage", JObject [(str "total", JNumber (str "7"))])].

(* ================================================================= *)
(** ** Notions used in the proofs *)

(** [s] ends with [r], and the character just before [r] is [x]. *)
Definition ends_at (x : char16) (s r : jsstring) : Prop :=
  exists pre, s = pre ++ x :: r.

Definition suffix_of (r s : jsstring) : Prop := exists pre, s = pre ++ r.

(** A text that ends with a digit. *)
Definition ends_with_digit (l : jsstring) : Prop :=
  exists pre d, l = pre ++ [d] /\ is_digit d = true.

(** A parsed value ends where the rest begins, and only an object (a text
    that starts with a left brace) ends with a right brace. *)
Definition closes (s r : jsstring) : Prop :=
  exists x, ends_at x s r /\ (x = RBRACE -> exists tl, s = LBRACE :: tl).

Definition consumption (n : nat) : Prop :=
  (forall s v r, parse_value n s = Some (v, r) -> closes s r) /\
  (forall s acc v r, parse_elements n s acc = Some (v, r) -> ends_at 93%N s r) /\
  (forall s acc v r, parse_members n s acc = Some (v, r) -> ends_at RBRACE s r).

(** With more than twice the length of the text, the result no longer depends
    on the fuel: no parse fails for want of it. *)
Definition fuel_independent (n : nat) : Prop :=
  (forall m s,
      (2 * List.length s < n)%nat -> (2 * List.length s < m)%nat ->
      parse_value n s = parse_value m s) /\
  (forall m s acc,
      (2 * List.length s + 1 < n)%nat -> (2 * List.length s + 1 < m)%nat ->
      parse_elements n s acc = parse_elements m s acc) /\
  (forall m s acc,
      (2 * List.length s + 1 < n)%nat -> (2 * List.length s + 1 < m)%nat ->
      parse_members n s acc = parse_members m s acc).

(** One step of the loop over the properties of an object (lines 45-52). *)
Definition collect_property (out : list jsstring) (kv : jsstring * Json) : list jsstring :=
  collectTextPieces (snd kv)
    (match snd kv with
     | JString s => if text_key_test (fst kv) then out ++ [s] else out
     | _ => out
     end).

(** The answer to a resolved upstream call, without the effects. *)
Definition answer (JSON_stringify : Json -> jsstring) (data : Json) : Response :=
  let no_candidate :=
    {| status := 500; body := NoCandidate (str "No candidate returned from Gemini") data |} in
  match first_candidate data with
  | None => no_candidate
  | Some candidate =>
      if truthy candidate then
        let textPieces := collectTextPieces data (collectTextPieces candidate []) in
        let joinedText := trim (join [NEWLINE] textPieces) in
        match fst (parse_with_salvage joinedText) with
        | Normal extractedJSON => {| status := 200; body := ExtractedJSON extractedJSON |}
        | Throw parseErr =>
            {| status := 500;
               body := SalvageFailed (str "Failed to parse JSON from Gemini response")
                         parseErr (slice joinedText 0 32000) (List.length textPieces)
                         (usage_of data) (slice (JSON_stringify candidate) 0 32000) |}
        end
      else no_candidate
  end.

(** All the string values of a JSON value, in the order a pre-order walk
    meets them. *)
Fixpoint string_values (v : Json) : list jsstring :=
  match v with
  | JString s => [s]
  | JArray els => flat_map string_values els
  | JObject props => flat_map (fun kv => string_values (snd kv)) props
  | _ => []
  end.

(** What line 49 pushes for the property [k] with value [v]. *)
Definition keyed_push (k : jsstring) (v : Json) : list jsstring :=
  match v with
  | JString s => if text_key_test k then [s] else []
  | _ => []
  end.

(** The arguments of the upstream call (lines 71-118). *)
Definition upstream_url (env : Env) (key : jsstring) : jsstring :=
  str "https://generativelanguage.googleapis.com/v1beta/models/"
  ++ or_default (GEMINI_MODEL env) (str "gemini-2.5-flash")
  ++ str ":generateContent?key=" ++ key.

Definition upstream_payload (JSON_stringify : Json -> jsstring) (env : Env) (f : File)
  : Payload :=
  build_payload JSON_stringify server_instructions (toBase64 (buffer f))
    (parseInt10 (or_default (MAX_OUTPUT_TOKENS env) (str "65535"))).

Definition upstream_config (env : Env) : AxiosConfig :=
  {| content_type := str "application/json";
     timeout := Some (parseInt10 (or_default (AXIOS_TIMEOUT_MS env) (str "220000"))) |}.

(** The text the handler parses for a response [data] with candidate
    [candidate] (lines 133-136). *)
Definition joined_text (data candidate : Json) : jsstring :=
  trim (join [NEWLINE] (collectTextPieces data (collectTextPieces candidate []))).

(** The body every failure of an earlier variant is answered with. *)
Definition direct_failure : Response :=
  {| status := 500; body := ErrorOnly (str "Failed to process PDF with Gemini AI.") |}.

(* ================================================================= *)
(** * Properties *)

(** ** Positions, [indexOf], [lastIndexOf] and [slice] *)

Lemma indexOf_from_position (c : char16) (s : jsstring) (i : Z) :
  indexOf_from s c i =
  match first_position c s with
  | Some k => i + Z.of_nat k
  | None => -1
  end.
Proof.
  revert i. induction s as [|x r IH]; intros i; simpl.
  - reflexivity.
  - destruct (N.eqb x c).
    + lia.
    + rewrite IH. destruct (first_position c r); lia.
Qed.

Lemma lastIndexOf_from_position (c : char16) (s : jsstring) (i found : Z) :
  lastIndexOf_from s c i found =
  match last_position c s with
  | Some k => i + Z.of_nat k
  | None => found
  end.
Proof.
  revert i found. induction s as [|x r IH]; intros i found; simpl.
  - reflexivity.
  - rewrite IH. destruct (last_position c r).
    + lia.
    + destruct (N.eqb x c); lia.
Qed.

Lemma indexOf_position (c : char16) (s : jsstring) :
  indexOf s c =
  match first_position c s with
  | Some k => Z.of_nat k
  | None => -1
  end.
Proof.
  unfold indexOf. rewrite indexOf_from_position.
  destruct (first_position c s); lia.
Qed.

Lemma lastIndexOf_position (c : char16) (s : jsstring) :
  lastIndexOf s c =
  match last_position c s with
  | Some k => Z.of_nat k
  | None => -1
  end.
Proof.
  unfold lastIndexOf. rewrite lastIndexOf_from_position.
  destruct (last_position c s); lia.
Qed.

Lemma first_position_lt (c : char16) (s : jsstring) (i : nat) :
  first_position c s = Some i -> (i < List.length s)%nat.
Proof.
  revert i. induction s as [|x r IH]; intros i; simpl; [discriminate|].
  destruct (N.eqb x c).
  - intros [= <-]. lia.
  - destruct (first_position c r) as [k|]; [|discriminate].
    intros [= <-]. specialize (IH k eq_refl). lia.
Qed.

Lemma last_position_lt (c : char16) (s : jsstring) (j : nat) :
  last_position c s = Some j -> (j < List.length s)%nat.
Proof.
  revert j. induction s as [|x r IH]; intros j; simpl; [discriminate|].
  destruct (last_position c r) as [k|].
  - intros [= <-]. specialize (IH k eq_refl). lia.
  - destruct (N.eqb x c); [|discriminate]. intros [= <-]. lia.
Qed.

Lemma first_position_absent (c : char16) (s : jsstring) :
  ~ In c s -> first_position c s = None.
Proof.
  induction s as [|x r IH]; simpl; intros H; [reflexivity|].
  destruct (N.eqb_spec x c) as [->|_].
  - exfalso. apply H. now left.
  - rewrite IH; [reflexivity|]. intros Hin. apply H. now right.
Qed.

Lemma last_position_absent (c : char16) (s : jsstring) :
  ~ In c s -> last_position c s = None.
Proof.
  induction s as [|x r IH]; simpl; intros H; [reflexivity|].
  rewrite IH by (intros Hin; apply H; now right).
  destruct (N.eqb_spec x c) as [->|_]; [|reflexivity].
  exfalso. apply H. now left.
Qed.

Lemma first_position_app (c : char16) (pre rest : jsstring) :
  ~ In c pre -> first_position c (pre ++ c :: rest) = Some (List.length pre).
Proof.
  induction pre as [|x r IH]; simpl; intros H.
  - now rewrite N.eqb_refl.
  - destruct (N.eqb_spec x c) as [->|_].
    + exfalso. apply H. now left.
    + rewrite IH; [reflexivity|]. intros Hin. apply H. now right.
Qed.

Lemma last_position_app (c : char16) (pre post : jsstring) :
  ~ In c post -> last_position c (pre ++ c :: post) = Some (List.length pre).
Proof.
  intros H. induction pre as [|x r IH]; simpl.
  - rewrite (last_position_absent c post H). now rewrite N.eqb_refl.
  - now rewrite IH.
Qed.

Lemma last_position_split (c : char16) (s : jsstring) (j : nat) :
  last_position c s = Some j ->
  exists pre post, s = pre ++ c :: post /\ List.length pre = j /\ ~ In c post.
Proof.
  revert j. induction s as [|x r IH]; intros j; simpl; [discriminate|].
  destruct (last_position c r) as [k|] eqn:E.
  - intros [= <-]. destruct (IH k eq_refl) as (pre & post & -> & Hl & Hn).
    exists (x :: pre), post. simpl. repeat split; [now rewrite Hl | exact Hn].
  - destruct (N.eqb_spec x c) as [->|_]; [|discriminate].
    intros [= <-]. exists [], r. repeat split.
    intros Hin. clear IH. induction r as [|y r' IHr]; [exact Hin|].
    simpl in E. destruct (last_position c r') eqn:E'; [discriminate|].
    destruct (N.eqb_spec y c) as [->|Hne]; [discriminate|].
    destruct Hin as [->|Hin]; [now apply Hne|]. now apply IHr.
Qed.

Lemma first_position_split (c : char16) (s : jsstring) (i : nat) :
  first_position c s = Some i ->
  exists pre post, s = pre ++ c :: post /\ List.length pre = i /\ ~ In c pre.
Proof.
  revert i. induction s as [|x r IH]; intros i; simpl; [discriminate|].
  destruct (N.eqb_spec x c) as [->|Hne].
  - intros [= <-]. exists [], r. repeat split. intros [].
  - destruct (first_position c r) as [k|]; [|discriminate].
    intros [= <-]. destruct (IH k eq_refl) as (pre & post & -> & Hl & Hn).
    exists (x :: pre), post. simpl. repeat split; [now rewrite Hl|].
    intros [->|Hin]; [now apply Hne | now apply Hn].
Qed.

Lemma slice_inclusive_span (s : jsstring) (i j : nat) :
  (i <= j)%nat -> (j < List.length s)%nat ->
  slice s (Z.of_nat i) (Z.of_nat j + 1) = inclusive_span s i j.
Proof.
  intros Hij Hj. unfold slice, inclusive_span, clamp_index.
  destruct (Z.ltb_spec (Z.of_nat i) 0); [lia|].
  destruct (Z.ltb_spec (Z.of_nat j + 1) 0); [lia|].
  rewrite !Z.min_l by lia.
  rewrite Nat2Z.id. f_equal. lia.
Qed.

Lemma slice_prefix (s : jsstring) (n : Z) :
  0 <= n -> slice s 0 n = firstn (Z.to_nat n) s.
Proof.
  intros Hn. unfold slice, clamp_index. simpl (0 <? 0).
  destruct (Z.ltb_spec n 0); [lia|].
  rewrite (Z.min_l 0) by lia. simpl. rewrite Z.sub_0_r.
  destruct (Z.min_spec n (Z.of_nat (List.length s))) as [[Hlt ->]|[Hge ->]].
  - reflexivity.
  - rewrite Nat2Z.id. rewrite firstn_all.
    symmetry. apply firstn_all2. lia.
Qed.

Lemma slice_prefix_length (s : jsstring) (n : Z) :
  0 <= n -> Z.of_nat (List.length (slice s 0 n)) <= n.
Proof.
  intros Hn. rewrite slice_prefix by exact Hn.
  rewrite length_firstn. lia.
Qed.

Lemma inclusive_span_middle (pre mid post : jsstring) (x : char16) :
  inclusive_span (pre ++ (mid ++ [x]) ++ post) (List.length pre)
    (List.length pre + List.length mid) = mid ++ [x].
Proof.
  unfold inclusive_span.
  rewrite skipn_app, skipn_all, Nat.sub_diag. simpl.
  replace (List.length pre + List.length mid - List.length pre + 1)%nat
    with (List.length (mid ++ [x]) + 0)%nat
    by (rewrite length_app; simpl; lia).
  rewrite firstn_app_2. simpl. now rewrite app_nil_r.
Qed.

(** ** White space *)

Lemma skip_ws_split (s : jsstring) :
  exists w, s = w ++ skip_ws s /\ forallb is_json_ws w = true.
Proof.
  induction s as [|c r (w & Hs & Hw)]; simpl.
  - now exists [].
  - destruct (is_json_ws c) eqn:E.
    + exists (c :: w). simpl. rewrite E, Hw. split; [now f_equal | reflexivity].
    + now exists [].
Qed.

Lemma skip_ws_app (w s : jsstring) :
  forallb is_json_ws w = true -> skip_ws (w ++ s) = skip_ws s.
Proof.
  induction w as [|c r IH]; simpl; [reflexivity|].
  intros H. apply andb_prop in H as [Hc Hr]. rewrite Hc. now apply IH.
Qed.

Lemma skip_ws_head (s r : jsstring) (c : char16) :
  skip_ws s = c :: r -> is_json_ws c = false.
Proof.
  induction s as [|x s' IH]; simpl; [discriminate|].
  destruct (is_json_ws x) eqn:E; [exact IH|].
  now intros [= <- _].
Qed.

Lemma skip_ws_nil (s : jsstring) :
  skip_ws s = [] -> forallb is_json_ws s = true.
Proof.
  induction s as [|x s' IH]; simpl; [reflexivity|].
  destruct (is_json_ws x); [exact IH | discriminate].
Qed.

Lemma skip_ws_fixed (s : jsstring) : skip_ws (skip_ws s) = skip_ws s.
Proof.
  destruct (skip_ws s) as [|c r] eqn:E; [reflexivity|].
  simpl. now rewrite (skip_ws_head _ _ _ E).
Qed.

Lemma skip_ws_length (s : jsstring) :
  (List.length (skip_ws s) <= List.length s)%nat.
Proof.
  destruct (skip_ws_split s) as (w & Hs & _).
  rewrite Hs at 2. rewrite length_app. lia.
Qed.

(** ** What a successful parse consumes *)

Lemma suffix_of_refl (s : jsstring) : suffix_of s s.
Proof. now exists []. Qed.

Lemma suffix_of_cons (c : char16) (r s : jsstring) :
  suffix_of (c :: r) s -> suffix_of r s.
Proof.
  intros [pre ->]. exists (pre ++ [c]). now rewrite <- app_assoc.
Qed.

Lemma suffix_of_trans (a b c : jsstring) :
  suffix_of a b -> suffix_of b c -> suffix_of a c.
Proof.
  intros [p ->] [q ->]. exists (q ++ p). now rewrite app_assoc.
Qed.

Lemma suffix_of_skip_ws (s : jsstring) : suffix_of (skip_ws s) s.
Proof.
  destruct (skip_ws_split s) as (w & Hs & _). now exists w.
Qed.

Lemma ends_at_suffix (x : char16) (s r : jsstring) :
  ends_at x s r -> suffix_of r s.
Proof.
  intros [pre ->]. exists (pre ++ [x]). now rewrite <- app_assoc.
Qed.

Lemma ends_at_within (x : char16) (s' s r : jsstring) :
  suffix_of s' s -> ends_at x s' r -> ends_at x s r.
Proof.
  intros [p ->] [q ->]. exists (p ++ q). now rewrite app_assoc.
Qed.

Lemma ends_at_head (x : char16) (s r : jsstring) :
  suffix_of (x :: r) s -> ends_at x s r.
Proof. intros [p ->]. now exists p. Qed.

Lemma suffix_of_length (r s : jsstring) :
  suffix_of r s -> (List.length r <= List.length s)%nat.
Proof. intros [p ->]. rewrite length_app. lia. Qed.

Lemma ends_at_length (x : char16) (s r : jsstring) :
  ends_at x s r -> (List.length r < List.length s)%nat.
Proof. intros [p ->]. rewrite length_app. simpl. lia. Qed.

Lemma parse_string_body_bounded (n : nat) :
  forall s acc v r,
    (List.length s <= n)%nat ->
    parse_string_body s acc = Some (v, r) -> ends_at QUOTE s r.
Proof.
  induction n as [|n IH]; intros s acc v r Hlen.
  - destruct s; [discriminate | simpl in Hlen; lia].
  - destruct s as [|c s1]; [discriminate|]. simpl in Hlen. simpl.
    destruct (N.eqb_spec c QUOTE) as [->|_].
    + intros [= _ ->]. now exists [].
    + destruct (N.eqb c BACKSLASH).
      * destruct s1 as [|e s2]; [discriminate|]. simpl in Hlen.
        destruct (N.eqb e 117).
        -- destruct s2 as [|h1 [|h2 [|h3 [|h4 s3]]]]; try discriminate.
           simpl in Hlen.
           destruct (hex4 h1 h2 h3 h4); [|discriminate].
           intros H. apply IH in H; [|lia].
           eapply ends_at_within; [|exact H].
           now exists [c; e; h1; h2; h3; h4].
        -- destruct (simple_escape e); [|discriminate].
           intros H. apply IH in H; [|lia].
           eapply ends_at_within; [|exact H]. now exists [c; e].
      * destruct (c <? 32)%N; [discriminate|].
        intros H. apply IH in H; [|lia].
        eapply ends_at_within; [|exact H]. now exists [c].
Qed.

Lemma parse_string_body_ends (s acc v r : jsstring) :
  parse_string_body s acc = Some (v, r) -> ends_at QUOTE s r.
Proof. apply (parse_string_body_bounded (List.length s)). lia. Qed.

Lemma span_digits_split (s ds r : jsstring) :
  span_digits s = (ds, r) -> s = ds ++ r /\ forallb is_digit ds = true.
Proof.
  revert ds r. induction s as [|c s' IH]; intros ds r; simpl.
  - now intros [= <- <-].
  - destruct (is_digit c) eqn:E.
    + destruct (span_digits s') as [ds' r'].
      intros [= <- <-]. destruct (IH ds' r' eq_refl) as [-> Hd].
      simpl. now rewrite E, Hd.
    + now intros [= <- <-].
Qed.

Lemma digits_end_with_digit (ds : jsstring) :
  ds <> [] -> forallb is_digit ds = true -> ends_with_digit ds.
Proof.
  intros Hne Hall. destruct (exists_last Hne) as (pre & d & ->).
  exists pre, d. split; [reflexivity|].
  rewrite forallb_app in Hall. apply andb_prop in Hall as [_ Hd].
  simpl in Hd. now rewrite andb_true_r in Hd.
Qed.

Lemma ends_with_digit_app (p l : jsstring) :
  ends_with_digit l -> ends_with_digit (p ++ l).
Proof.
  intros (pre & d & -> & Hd). exists (p ++ pre), d.
  now rewrite app_assoc.
Qed.

Lemma ends_with_digit_app_nil (l m : jsstring) :
  ends_with_digit l -> m = [] \/ ends_with_digit m -> ends_with_digit (l ++ m).
Proof.
  intros Hl [->|Hm].
  - now rewrite app_nil_r.
  - now apply ends_with_digit_app.
Qed.

Lemma parse_int_split (s i r : jsstring) :
  parse_int s = Some (i, r) -> s = i ++ r /\ ends_with_digit i.
Proof.
  unfold parse_int. destruct s as [|d s']; [discriminate|].
  destruct (N.eqb_spec d 48) as [->|_].
  - intros [= <- <-]. split; [reflexivity|]. now exists [], 48%N.
  - destruct (is_digit d) eqn:E; [|discriminate].
    destruct (span_digits s') as [ds rest] eqn:Es.
    intros [= <- <-]. destruct (span_digits_split _ _ _ Es) as [-> Hd].
    split; [reflexivity|].
    apply digits_end_with_digit; [discriminate|]. simpl. now rewrite E, Hd.
Qed.

Lemma parse_frac_split (s f r : jsstring) :
  parse_frac s = Some (f, r) -> s = f ++ r /\ (f = [] \/ ends_with_digit f).
Proof.
  unfold parse_frac. destruct s as [|c s'].
  - intros [= <- <-]. now split; [|left].
  - destruct (N.eqb c 46).
    + destruct (span_digits s') as [ds rest] eqn:Es.
      destruct (span_digits_split _ _ _ Es) as [-> Hd].
      destruct ds as [|d ds']; [discriminate|].
      intros [= <- <-]. split; [reflexivity|]. right.
      apply (ends_with_digit_app [c]).
      apply digits_end_with_digit; [discriminate | exact Hd].
    + intros [= <- <-]. now split; [|left].
Qed.

Lemma parse_exp_split (s e r : jsstring) :
  parse_exp s = Some (e, r) -> s = e ++ r /\ (e = [] \/ ends_with_digit e).
Proof.
  unfold parse_exp. destruct s as [|c s'].
  - intros [= <- <-]. now split; [|left].
  - destruct (is_exp_mark c).
    + set (p := match s' with
                | [] => ([], s')
                | g :: r' => if (N.eqb g 43 || N.eqb g 45)%N then ([g], r') else ([], s')
                end).
      assert (Hp : s' = fst p ++ snd p).
      { subst p. destruct s' as [|g r']; [reflexivity|].
        destruct (N.eqb g 43 || N.eqb g 45)%N; reflexivity. }
      destruct p as [sign r1]. simpl in Hp.
      destruct (span_digits r1) as [ds rest] eqn:Es.
      destruct (span_digits_split _ _ _ Es) as [-> Hd].
      destruct ds as [|d ds']; [discriminate|].
      intros [= <- <-]. split.
      * rewrite Hp. simpl. now rewrite <- !app_assoc.
      * right. apply (ends_with_digit_app (c :: sign)).
        apply digits_end_with_digit; [discriminate | exact Hd].
    + intros [= <- <-]. now split; [|left].
Qed.

Lemma parse_number_ends (s literal r : jsstring) :
  parse_number s = Some (literal, r) ->
  exists d, is_digit d = true /\ ends_at d s r.
Proof.
  unfold parse_number.
  set (p := match s with
            | [] => ([], s)
            | c :: r0 => if N.eqb c 45 then ([c], r0) else ([], s)
            end).
  assert (Hp : s = fst p ++ snd p).
  { subst p. destruct s as [|c r0]; [reflexivity|].
    destruct (N.eqb c 45); reflexivity. }
  destruct p as [sign s1]. simpl in Hp.
  destruct (parse_int s1) as [[i s2]|] eqn:Ei; [|discriminate].
  destruct (parse_frac s2) as [[f s3]|] eqn:Ef; [|discriminate].
  destruct (parse_exp s3) as [[e s4]|] eqn:Ee; [|discriminate].
  intros [= <- <-].
  destruct (parse_int_split _ _ _ Ei) as [-> Hi].
  destruct (parse_frac_split _ _ _ Ef) as [-> Hf].
  destruct (parse_exp_split _ _ _ Ee) as [-> He].
  assert (H : ends_with_digit (sign ++ i ++ f ++ e)).
  { apply ends_with_digit_app. rewrite app_assoc.
    apply ends_with_digit_app_nil; [|exact He].
    now apply ends_with_digit_app_nil. }
  destruct H as (pre & d & Hl & Hd). exists d. split; [exact Hd|].
  exists pre. rewrite Hp.
  replace (sign ++ (i ++ f ++ e ++ s4)) with ((sign ++ i ++ f ++ e) ++ s4)
    by now rewrite <- !app_assoc.
  rewrite Hl. now rewrite <- app_assoc.
Qed.

Lemma strip_prefix_split (p s r : jsstring) :
  strip_prefix p s = Some r -> s = p ++ r.
Proof.
  revert s. induction p as [|a p' IH]; intros s; simpl.
  - now intros [= ->].
  - destruct s as [|c s']; [discriminate|].
    destruct (N.eqb_spec a c) as [->|_]; [|discriminate].
    intros H. now rewrite (IH _ H).
Qed.

Lemma parse_literal_ends (s r : jsstring) (v : Json) :
  parse_literal s = Some (v, r) ->
  exists x, x <> RBRACE /\ ends_at x s r.
Proof.
  unfold parse_literal.
  destruct (strip_prefix (str "true") s) as [r1|] eqn:E1.
  { intros [= _ <-]. apply strip_prefix_split in E1. subst s.
    exists 101%N. split; [discriminate|]. now exists (str "tru"). }
  destruct (strip_prefix (str "false") s) as [r2|] eqn:E2.
  { intros [= _ <-]. apply strip_prefix_split in E2. subst s.
    exists 101%N. split; [discriminate|]. now exists (str "fals"). }
  destruct (strip_prefix (str "null") s) as [r3|] eqn:E3; [|discriminate].
  intros [= _ <-]. apply strip_prefix_split in E3. subst s.
  exists 108%N. split; [discriminate|]. now exists (str "nul").
Qed.

Lemma closes_suffix (s r : jsstring) : closes s r -> suffix_of r s.
Proof. intros (x & H & _). exact (ends_at_suffix _ _ _ H). Qed.

Lemma closes_length (s r : jsstring) :
  closes s r -> (List.length r < List.length s)%nat.
Proof. intros (x & H & _). exact (ends_at_length _ _ _ H). Qed.

Lemma parse_consumption (n : nat) : consumption n.
Proof.
  induction n as [|n (IHv & IHe & IHm)].
  - repeat split; intros; discriminate.
  - repeat split.
    + (* values *)
      intros s v r. simpl. destruct s as [|c s1]; [discriminate|].
      destruct (N.eqb_spec c LBRACE) as [->|Hnb].
      { destruct (skip_ws s1) as [|c2 r2] eqn:Ews; [discriminate|].
        assert (Hsuf' : suffix_of (c2 :: r2) (LBRACE :: s1)).
        { destruct (suffix_of_skip_ws s1) as [w Hw]. rewrite Ews in Hw.
          exists (LBRACE :: w). simpl. now rewrite <- Hw. }
        destruct (N.eqb_spec c2 RBRACE) as [->|_].
        - intros [= _ <-]. exists RBRACE. split; [|now eexists].
          now apply ends_at_head.
        - intros H. apply IHm in H. exists RBRACE. split; [|now eexists].
          eapply ends_at_within; [exact Hsuf' | exact H]. }
      destruct (N.eqb_spec c 91) as [->|_].
      { destruct (skip_ws s1) as [|c2 r2] eqn:Ews; [discriminate|].
        assert (Hsuf' : suffix_of (c2 :: r2) (91%N :: s1)).
        { destruct (suffix_of_skip_ws s1) as [w Hw]. rewrite Ews in Hw.
          exists (91%N :: w). simpl. now rewrite <- Hw. }
        destruct (N.eqb_spec c2 93) as [->|_].
        - intros [= _ <-]. exists 93%N. split; [|discriminate].
          now apply ends_at_head.
        - intros H. apply IHe in H. exists 93%N. split; [|discriminate].
          eapply ends_at_within; [exact Hsuf' | exact H]. }
      destruct (N.eqb_spec c QUOTE) as [->|_].
      { destruct (parse_string_body s1 []) as [[sv rest]|] eqn:Es; [|discriminate].
        intros [= _ <-]. exists QUOTE. split; [|discriminate].
        eapply ends_at_within; [|exact (parse_string_body_ends _ _ _ _ Es)].
        now exists [QUOTE]. }
      destruct (N.eqb c 45 || is_digit c)%N.
      { destruct (parse_number (c :: s1)) as [[lit rest]|] eqn:En; [|discriminate].
        intros [= _ <-]. destruct (parse_number_ends _ _ _ En) as (d & Hd & He).
        exists d. split; [exact He|]. intros ->. discriminate. }
      intros H. destruct (parse_literal_ends _ _ _ H) as (x & Hx & He).
      exists x. split; [exact He|]. intros ->. now elim Hx.
    + (* elements *)
      intros s acc v r. simpl.
      destruct (parse_value n s) as [[v1 r1]|] eqn:Ev; [|discriminate].
      apply IHv in Ev. apply closes_suffix in Ev.
      destruct (skip_ws r1) as [|c r'] eqn:Ews; [discriminate|].
      assert (Hc : suffix_of (c :: r') s).
      { rewrite <- Ews. eapply suffix_of_trans; [apply suffix_of_skip_ws | exact Ev]. }
      destruct (N.eqb_spec c 44) as [->|_].
      * intros H. apply IHe in H.
        eapply ends_at_within; [|exact H].
        eapply suffix_of_trans; [apply suffix_of_skip_ws|].
        eapply suffix_of_cons. exact Hc.
      * destruct (N.eqb_spec c 93) as [->|_]; [|discriminate].
        intros [= _ <-]. now apply ends_at_head.
    + (* members *)
      intros s acc v r. simpl. destruct s as [|q s1]; [discriminate|].
      destruct (N.eqb q QUOTE); [|discriminate].
      destruct (parse_string_body s1 []) as [[k r1]|] eqn:Es; [|discriminate].
      apply parse_string_body_ends, ends_at_suffix in Es.
      destruct (skip_ws r1) as [|colon r2] eqn:Ews1; [discriminate|].
      destruct (N.eqb colon 58); [|discriminate].
      destruct (parse_value n (skip_ws r2)) as [[v1 r3]|] eqn:Ev; [|discriminate].
      apply IHv in Ev. apply closes_suffix in Ev.
      destruct (skip_ws r3) as [|c r4] eqn:Ews3; [discriminate|].
      assert (Hc : suffix_of (c :: r4) (q :: s1)).
      { rewrite <- Ews3.
        eapply suffix_of_trans; [apply suffix_of_skip_ws|].
        eapply suffix_of_trans; [exact Ev|].
        eapply suffix_of_trans; [apply suffix_of_skip_ws|].
        apply suffix_of_cons with (c := colon). rewrite <- Ews1.
        eapply suffix_of_trans; [apply suffix_of_skip_ws|].
        eapply suffix_of_trans; [exact Es|].
        now exists [q]. }
      destruct (N.eqb_spec c 44) as [->|_].
      * intros H. apply IHm in H.
        eapply ends_at_within; [|exact H].
        eapply suffix_of_trans; [apply suffix_of_skip_ws|].
        eapply suffix_of_cons. exact Hc.
      * destruct (N.eqb_spec c RBRACE) as [->|_]; [|discriminate].
        intros [= _ <-]. now apply ends_at_head.
Qed.

Lemma parse_value_closes (n : nat) (s r : jsstring) (v : Json) :
  parse_value n s = Some (v, r) -> closes s r.
Proof. apply (parse_consumption n). Qed.

(** ** The fuel of the parser is enough *)

Lemma skip_ws_cons_length (s r : jsstring) (c : char16) :
  skip_ws s = c :: r -> (List.length r < List.length s)%nat.
Proof.
  intros E. pose proof (skip_ws_length s) as H. rewrite E in H. simpl in H. lia.
Qed.

Lemma parse_fuel_independent (n : nat) : fuel_independent n.
Proof.
  induction n as [|n (IHv & IHe & IHm)].
  - repeat split; intros; lia.
  - repeat split.
    + intros [|m] s Hn Hm; [lia|]. simpl.
      destruct s as [|c s1]; [reflexivity|]. simpl in Hn, Hm.
      pose proof (skip_ws_length s1) as Hws.
      destruct (N.eqb c LBRACE).
      { destruct (skip_ws s1) as [|c2 r2] eqn:Ews; [reflexivity|].
        destruct (N.eqb c2 RBRACE); [reflexivity|].
        apply IHm; lia. }
      destruct (N.eqb c 91).
      { destruct (skip_ws s1) as [|c2 r2] eqn:Ews; [reflexivity|].
        destruct (N.eqb c2 93); [reflexivity|].
        apply IHe; lia. }
      reflexivity.
    + intros [|m] s acc Hn Hm; [lia|]. simpl.
      rewrite (IHv m s) by lia.
      destruct (parse_value m s) as [[v1 r1]|] eqn:Ev; [|reflexivity].
      apply parse_value_closes, closes_length in Ev.
      destruct (skip_ws r1) as [|c r'] eqn:Ews; [reflexivity|].
      apply skip_ws_cons_length in Ews.
      pose proof (skip_ws_length r') as Hws.
      destruct (N.eqb c 44); [|reflexivity].
      apply IHe; lia.
    + intros [|m] s acc Hn Hm; [lia|]. simpl.
      destruct s as [|q s1]; [reflexivity|]. simpl in Hn, Hm.
      destruct (N.eqb q QUOTE); [|reflexivity].
      destruct (parse_string_body s1 []) as [[k r1]|] eqn:Es; [|reflexivity].
      apply parse_string_body_ends, ends_at_length in Es.
      destruct (skip_ws r1) as [|colon r2] eqn:Ews1; [reflexivity|].
      apply skip_ws_cons_length in Ews1.
      destruct (N.eqb colon 58); [|reflexivity].
      pose proof (skip_ws_length r2) as Hws2.
      rewrite (IHv m (skip_ws r2)) by lia.
      destruct (parse_value m (skip_ws r2)) as [[v1 r3]|] eqn:Ev; [|reflexivity].
      apply parse_value_closes, closes_length in Ev.
      destruct (skip_ws r3) as [|c r4] eqn:Ews3; [reflexivity|].
      apply skip_ws_cons_length in Ews3.
      pose proof (skip_ws_length r4) as Hws4.
      destruct (N.eqb c 44); [|reflexivity].
      apply IHm; lia.
Qed.

Lemma parse_value_fuel (n : nat) (s : jsstring) :
  (parse_fuel s <= n)%nat -> parse_value n s = parse_value (parse_fuel s) s.
Proof.
  intros H. unfold parse_fuel in *.
  apply (parse_fuel_independent n); lia.
Qed.

(** ** [JSON.parse] and surrounding white space *)

Lemma JSON_parse_value_of (text : jsstring) :
  value_of (JSON_parse text) =
  match parse_value (parse_fuel (skip_ws text)) (skip_ws text) with
  | Some (v, rest) => match skip_ws rest with [] => Some v | _ :: _ => None end
  | None => None
  end.
Proof.
  unfold JSON_parse.
  destruct (parse_value _ _) as [[v rest]|]; [|reflexivity].
  now destruct (skip_ws rest).
Qed.

Lemma JSON_parse_Normal (text : jsstring) (v : Json) :
  JSON_parse text = Normal v <-> value_of (JSON_parse text) = Some v.
Proof.
  destruct (JSON_parse text); simpl; split; congruence.
Qed.

Lemma JSON_parse_Throw (text : jsstring) (e : SyntaxError) :
  JSON_parse text = Throw e -> e = {| rejected := text |}.
Proof.
  unfold JSON_parse.
  destruct (parse_value _ _) as [[v rest]|]; [|congruence].
  destruct (skip_ws rest); congruence.
Qed.

Lemma JSON_parse_leading_ws (w text : jsstring) :
  forallb is_json_ws w = true ->
  value_of (JSON_parse (w ++ text)) = value_of (JSON_parse text).
Proof.
  intros Hw. rewrite !JSON_parse_value_of. now rewrite (skip_ws_app w text Hw).
Qed.

Lemma forallb_ws_no_brace (w : jsstring) (c : char16) :
  forallb is_json_ws w = true -> is_json_ws c = false -> ~ In c w.
Proof.
  intros Hw Hc Hin. rewrite forallb_forall in Hw.
  specialize (Hw c Hin). congruence.
Qed.

(** A text that parses and ends with a right brace is an object literal after
    its leading white space. *)
Lemma JSON_parse_ends_with_brace (body : jsstring) (v : Json) :
  JSON_parse (body ++ [RBRACE]) = Normal v ->
  exists w tl,
    body ++ [RBRACE] = w ++ LBRACE :: tl /\
    forallb is_json_ws w = true /\
    JSON_parse (LBRACE :: tl) = Normal v.
Proof.
  intros H. apply JSON_parse_Normal in H.
  destruct (skip_ws_split (body ++ [RBRACE])) as (w & Hs & Hw).
  assert (Hv : value_of (JSON_parse (skip_ws (body ++ [RBRACE]))) = Some v).
  { rewrite <- H. rewrite Hs at 2. symmetry. now apply JSON_parse_leading_ws. }
  rewrite JSON_parse_value_of in H.
  destruct (parse_value _ _) as [[v' rest]|] eqn:Ev; [|discriminate].
  destruct (skip_ws rest) eqn:Er; [|discriminate].
  apply skip_ws_nil in Er.
  apply parse_value_closes in Ev. destruct Ev as (x & [pre Hpre] & Hx).
  rewrite Hpre in Hs.
  assert (Hrest : rest = []).
  { destruct rest as [|y rest']; [reflexivity|]. exfalso.
    destruct (@exists_last _ (y :: rest')) as (l' & a & Hl); [discriminate|].
    rewrite Hl in Hs, Er.
    assert (E : body ++ [RBRACE] = (w ++ pre ++ x :: l') ++ [a]).
    { rewrite Hs. rewrite <- !app_assoc. reflexivity. }
    apply app_inj_tail in E. destruct E as [_ <-].
    rewrite forallb_app in Er. apply andb_prop in Er as [_ Er].
    discriminate Er. }
  subst rest.
  assert (Hxb : x = RBRACE).
  { assert (E : body ++ [RBRACE] = (w ++ pre) ++ [x]).
    { rewrite Hs. now rewrite <- app_assoc. }
    apply app_inj_tail in E. now destruct E as [_ <-]. }
  subst x.
  destruct (Hx eq_refl) as [tl Htl].
  exists w, tl. rewrite <- Htl. repeat split; [| exact Hw |].
  - rewrite Hpre. exact Hs.
  - apply JSON_parse_Normal. exact Hv.
Qed.

(** ** The heuristics of the handler and the strategies of the specification *)

Lemma outer_brace_code (text : jsstring) :
  (if negb (indexOf text LBRACE =? -1) && negb (lastIndexOf text RBRACE =? -1)
      && (lastIndexOf text RBRACE >? indexOf text LBRACE)
   then Some (slice text (indexOf text LBRACE) (lastIndexOf text RBRACE + 1))
   else None)
  = outer_brace_extraction text.
Proof.
  rewrite indexOf_position, lastIndexOf_position. unfold outer_brace_extraction.
  destruct (first_position LBRACE text) as [i|] eqn:Ei;
    destruct (last_position RBRACE text) as [j|] eqn:Ej.
  - destruct (Z.eqb_spec (Z.of_nat i) (-1)); [lia|].
    destruct (Z.eqb_spec (Z.of_nat j) (-1)); [lia|]. simpl.
    rewrite Z.gtb_ltb.
    destruct (Z.ltb_spec (Z.of_nat i) (Z.of_nat j));
      destruct (Nat.ltb_spec i j); try lia; [|reflexivity].
    rewrite slice_inclusive_span; [reflexivity | lia |].
    now apply last_position_lt with (c := RBRACE).
  - destruct (Z.eqb_spec (Z.of_nat i) (-1)); [lia|]. reflexivity.
  - reflexivity.
  - reflexivity.
Qed.

Lemma last_close_code (text : jsstring) :
  (if lastIndexOf text RBRACE >? 0
   then Some (slice text 0 (lastIndexOf text RBRACE + 1))
   else None)
  = trailing_truncation_recovery text.
Proof.
  rewrite lastIndexOf_position. unfold trailing_truncation_recovery.
  destruct (last_position RBRACE text) as [j|] eqn:Ej; [|reflexivity].
  rewrite Z.gtb_ltb.
  destruct (Z.ltb_spec 0 (Z.of_nat j)); destruct (Nat.ltb_spec 0 j);
    try lia; [|reflexivity].
  pose proof (slice_inclusive_span text 0 j) as Hs. simpl (Z.of_nat 0) in Hs.
  rewrite Hs; [reflexivity | lia |].
  now apply last_position_lt with (c := RBRACE).
Qed.

(** The result and the parse attempts of the handler's code, by cases on the
    three texts it may parse. *)
Lemma parse_with_salvage_cases (text : jsstring) :
  let second :=
    if negb (indexOf text LBRACE =? -1) && negb (lastIndexOf text RBRACE =? -1)
       && (lastIndexOf text RBRACE >? indexOf text LBRACE)
    then Some (slice text (indexOf text LBRACE) (lastIndexOf text RBRACE + 1))
    else None in
  let third :=
    if lastIndexOf text RBRACE >? 0
    then Some (slice text 0 (lastIndexOf text RBRACE + 1))
    else None in
  let run := parse_with_salvage text in
  (value_of (fst run), parse_attempts (snd run)) =
  first_success text [direct_parse; (fun _ => second); (fun _ => third)].
Proof.
  unfold parse_with_salvage, try_JSON_parse, console, bind, emit, ret.
  cbn [first_success direct_parse].
  destruct (JSON_parse text) as [v|e]; [reflexivity|].
  destruct (negb (indexOf text LBRACE =? -1) && negb (lastIndexOf text RBRACE =? -1)
            && (lastIndexOf text RBRACE >? indexOf text LBRACE)).
  - destruct (JSON_parse (slice text (indexOf text LBRACE) (lastIndexOf text RBRACE + 1)))
      as [v2|e2]; [reflexivity|].
    destruct (lastIndexOf text RBRACE >? 0).
    + destruct (JSON_parse (slice text 0 (lastIndexOf text RBRACE + 1)));
        reflexivity.
    + reflexivity.
  - destruct (lastIndexOf text RBRACE >? 0).
    + destruct (JSON_parse (slice text 0 (lastIndexOf text RBRACE + 1)));
        reflexivity.
    + reflexivity.
Qed.

Lemma parse_with_salvage_chain (text : jsstring) :
  (value_of (fst (parse_with_salvage text)),
   parse_attempts (snd (parse_with_salvage text)))
  = first_success text salvage_strategies.
Proof.
  pose proof (parse_with_salvage_cases text) as H. cbv zeta in H.
  rewrite H. unfold salvage_strategies. cbn [first_success].
  rewrite outer_brace_code, last_close_code. reflexivity.
Qed.

(** When every attempt fails, the error is that of the direct parse. *)
Lemma parse_with_salvage_error (text : jsstring) (e : SyntaxError) :
  fst (parse_with_salvage text) = Throw e -> e = {| rejected := text |}.
Proof.
  unfold parse_with_salvage, try_JSON_parse, console, bind, emit, ret.
  destruct (JSON_parse text) as [v|e0] eqn:E0; [discriminate|].
  apply JSON_parse_Throw in E0. subst e0.
  destruct (negb (indexOf text LBRACE =? -1) && negb (lastIndexOf text RBRACE =? -1)
            && (lastIndexOf text RBRACE >? indexOf text LBRACE)).
  - destruct (JSON_parse (slice text (indexOf text LBRACE) (lastIndexOf text RBRACE + 1)));
      [discriminate|].
    destruct (lastIndexOf text RBRACE >? 0).
    + destruct (JSON_parse (slice text 0 (lastIndexOf text RBRACE + 1)));
        [discriminate|]. simpl. congruence.
    + simpl. congruence.
  - destruct (lastIndexOf text RBRACE >? 0).
    + destruct (JSON_parse (slice text 0 (lastIndexOf text RBRACE + 1)));
        [discriminate|]. simpl. congruence.
    + simpl. congruence.
Qed.

Lemma parse_with_salvage_no_last_close_chain (text : jsstring) :
  (value_of (fst (parse_with_salvage_no_last_close text)),
   parse_attempts (snd (parse_with_salvage_no_last_close text)))
  = first_success text [direct_parse; outer_brace_extraction].
Proof.
  cbn [first_success direct_parse]. rewrite <- outer_brace_code.
  unfold parse_with_salvage_no_last_close, try_JSON_parse, console, bind, emit, ret.
  destruct (JSON_parse text) as [v|e]; [reflexivity|].
  destruct (negb (indexOf text LBRACE =? -1) && negb (lastIndexOf text RBRACE =? -1)
            && (lastIndexOf text RBRACE >? indexOf text LBRACE)); [|reflexivity].
  destruct (JSON_parse (slice text (indexOf text LBRACE) (lastIndexOf text RBRACE + 1)));
    reflexivity.
Qed.

Lemma parse_with_salvage_no_last_close_error (text : jsstring) (e : SyntaxError) :
  fst (parse_with_salvage_no_last_close text) = Throw e -> e = {| rejected := text |}.
Proof.
  unfold parse_with_salvage_no_last_close, try_JSON_parse, console, bind, emit, ret.
  destruct (JSON_parse text) as [v|e0] eqn:E0; [discriminate|].
  apply JSON_parse_Throw in E0. subst e0.
  destruct (negb (indexOf text LBRACE =? -1) && negb (lastIndexOf text RBRACE =? -1)
            && (lastIndexOf text RBRACE >? indexOf text LBRACE)).
  - destruct (JSON_parse (slice text (indexOf text LBRACE) (lastIndexOf text RBRACE + 1)));
      [discriminate|]. simpl. congruence.
  - simpl. congruence.
Qed.

Lemma value_of_Some (r : Completion Json) (v : Json) :
  value_of r = Some v -> r = Normal v.
Proof. destruct r; simpl; congruence. Qed.

(** In a run of the strategies that found a value, the last text parsed is
    the one that gave it, and every text parsed before failed. *)
Lemma first_success_last (text : jsstring) (strategies : list Strategy) :
  forall v tried,
    first_success text strategies = (Some v, tried) ->
    exists before t,
      tried = before ++ [t] /\ JSON_parse t = Normal v /\
      Forall (fun t' => value_of (JSON_parse t') = None) before.
Proof.
  induction strategies as [|s rest IH]; intros v tried; simpl; [discriminate|].
  destruct (s text) as [t|]; [|apply IH].
  destruct (JSON_parse t) as [w|e] eqn:E.
  - intros [= <- <-]. exists [], t. repeat split; [exact E | constructor].
  - destruct (first_success text rest) as [r tried'].
    intros [= -> <-]. destruct (IH v tried' eq_refl) as (before & t' & -> & Ht & Hb).
    exists (t :: before), t'. repeat split; [exact Ht|].
    constructor; [now rewrite E | exact Hb].
Qed.

(** In a run that found nothing, every text parsed failed. *)
Lemma first_success_none (text : jsstring) (strategies : list Strategy) :
  forall tried,
    first_success text strategies = (None, tried) ->
    Forall (fun t' => value_of (JSON_parse t') = None) tried /\
    Forall (strategy_fails text) strategies.
Proof.
  induction strategies as [|s rest IH]; intros tried; simpl.
  - intros [= <-]. split; constructor.
  - unfold strategy_fails at 1.
    destruct (s text) as [t|] eqn:Es.
    + destruct (JSON_parse t) as [w|e] eqn:E; [discriminate|].
      destruct (first_success text rest) as [r tried'].
      intros [= -> <-]. destruct (IH tried' eq_refl) as [H1 H2]. split.
      * constructor; [now rewrite E | exact H1].
      * constructor; [|exact H2]. unfold strategy_fails. rewrite Es. now rewrite E.
    + intros H. destruct (IH tried H) as [H1 H2]. split; [exact H1|].
      constructor; [|exact H2]. unfold strategy_fails. now rewrite Es.
Qed.

Lemma first_success_all_fail (text : jsstring) (strategies : list Strategy) :
  Forall (strategy_fails text) strategies ->
  fst (first_success text strategies) = None.
Proof.
  induction 1 as [|s rest Hs _ IH]; simpl; [reflexivity|].
  unfold strategy_fails in Hs. destruct (s text) as [t|]; [|exact IH].
  destruct (JSON_parse t); [discriminate|].
  destruct (first_success text rest). exact IH.
Qed.

(** ** The outer-brace strategy on a text that embeds an object *)

Lemma brace_free_In (s : jsstring) :
  brace_free s = true -> ~ In LBRACE s /\ ~ In RBRACE s.
Proof.
  unfold brace_free. rewrite forallb_forall. intros H.
  split; intros Hin; specialize (H _ Hin); discriminate.
Qed.

Lemma outer_brace_embedded (prefix mid suffix : jsstring) :
  ~ In LBRACE prefix -> ~ In RBRACE suffix ->
  outer_brace_extraction (prefix ++ (LBRACE :: mid ++ [RBRACE]) ++ suffix)
  = Some (LBRACE :: mid ++ [RBRACE]).
Proof.
  intros Hp Hs. unfold outer_brace_extraction.
  replace (prefix ++ (LBRACE :: mid ++ [RBRACE]) ++ suffix)
    with (prefix ++ LBRACE :: (mid ++ [RBRACE]) ++ suffix) at 1 by reflexivity.
  rewrite (first_position_app LBRACE prefix _ Hp).
  replace (prefix ++ (LBRACE :: mid ++ [RBRACE]) ++ suffix)
    with ((prefix ++ LBRACE :: mid) ++ RBRACE :: suffix) at 1
    by (rewrite <- !app_assoc; simpl; now rewrite <- !app_assoc).
  rewrite (last_position_app RBRACE _ suffix Hs).
  rewrite length_app. simpl List.length.
  destruct (Nat.ltb_spec (List.length prefix) (List.length prefix + S (List.length mid)));
    [|lia].
  f_equal.
  exact (inclusive_span_middle prefix (LBRACE :: mid) suffix RBRACE).
Qed.

(** ** The last-close strategy adds nothing *)

Lemma inclusive_span_prefix (pre post : jsstring) (x : char16) :
  inclusive_span (pre ++ x :: post) 0 (List.length pre) = pre ++ [x].
Proof.
  unfold inclusive_span. simpl skipn. rewrite Nat.sub_0_r.
  replace (pre ++ x :: post) with ((pre ++ [x]) ++ post)
    by now rewrite <- app_assoc.
  replace (List.length pre + 1)%nat with (List.length (pre ++ [x]) + 0)%nat
    by (rewrite length_app; simpl; lia).
  rewrite firstn_app_2. simpl. now rewrite app_nil_r.
Qed.

Lemma last_close_implies_outer_brace (text t3 : jsstring) (v : Json) :
  trailing_truncation_recovery text = Some t3 ->
  JSON_parse t3 = Normal v ->
  exists t2, outer_brace_extraction text = Some t2 /\ JSON_parse t2 = Normal v.
Proof.
  unfold trailing_truncation_recovery.
  destruct (last_position RBRACE text) as [j|] eqn:Ej; [|discriminate].
  destruct (0 <? j)%nat; [|discriminate].
  destruct (last_position_split _ _ _ Ej) as (pre & post & -> & Hl & Hpost).
  subst j. rewrite inclusive_span_prefix. intros [= <-] Hparse.
  destruct (JSON_parse_ends_with_brace _ _ Hparse) as (w & tl & Hsplit & Hw & Hv).
  assert (Htl : exists mid, tl = mid ++ [RBRACE]).
  { destruct tl as [|y tl'].
    - exfalso. apply app_inj_tail in Hsplit. destruct Hsplit as [_ E]. discriminate E.
    - destruct (@exists_last _ (y :: tl')) as (mid & a & Hm); [discriminate|].
      rewrite Hm in Hsplit.
      assert (E : pre ++ [RBRACE] = (w ++ LBRACE :: mid) ++ [a]).
      { rewrite Hsplit. now rewrite <- app_assoc. }
      apply app_inj_tail in E. destruct E as [_ <-]. now exists mid. }
  destruct Htl as [mid ->].
  exists (LBRACE :: mid ++ [RBRACE]). split; [|exact Hv].
  replace (pre ++ RBRACE :: post) with (w ++ (LBRACE :: mid ++ [RBRACE]) ++ post).
  - apply outer_brace_embedded; [|exact Hpost].
    now apply forallb_ws_no_brace.
  - replace (pre ++ RBRACE :: post) with ((pre ++ [RBRACE]) ++ post)
      by now rewrite <- app_assoc.
    rewrite Hsplit. now rewrite <- app_assoc.
Qed.

Lemma first_success_without_last_close (text : jsstring) :
  fst (first_success text salvage_strategies)
  = fst (first_success text [direct_parse; outer_brace_extraction]).
Proof.
  unfold salvage_strategies. cbn [first_success direct_parse].
  destruct (JSON_parse text) as [v|e]; [reflexivity|].
  destruct (outer_brace_extraction text) as [t2|] eqn:E2.
  - destruct (JSON_parse t2) as [v2|e2] eqn:P2; [reflexivity|].
    destruct (trailing_truncation_recovery text) as [t3|] eqn:E3; [|reflexivity].
    destruct (JSON_parse t3) as [v3|e3] eqn:P3; [|reflexivity].
    destruct (last_close_implies_outer_brace _ _ _ E3 P3) as (t2' & Ht & Hv).
    congruence.
  - destruct (trailing_truncation_recovery text) as [t3|] eqn:E3; [|reflexivity].
    destruct (JSON_parse t3) as [v3|e3] eqn:P3; [|reflexivity].
    destruct (last_close_implies_outer_brace _ _ _ E3 P3) as (t2' & Ht & Hv).
    congruence.
Qed.

(** ** The collector *)

Lemma collectTextPieces_object (props : list (jsstring * Json)) (out : list jsstring) :
  collectTextPieces (JObject props) out = fold_left collect_property props out.
Proof. reflexivity. Qed.

Lemma collectTextPieces_array (els : list Json) (out : list jsstring) :
  collectTextPieces (JArray els) out
  = fold_left (fun out el => collectTextPieces el out) els out.
Proof. reflexivity. Qed.

Lemma fold_left_pushes {A : Type} (f : list jsstring -> A -> list jsstring) (l : list A) :
  Forall (fun x => forall out, f out x = out ++ f [] x) l ->
  forall out, fold_left f l out = out ++ fold_left f l [].
Proof.
  induction 1 as [|x r Hx _ IH]; intros out; simpl.
  - now rewrite app_nil_r.
  - rewrite IH. rewrite (IH (f [] x)). rewrite Hx. now rewrite app_assoc.
Qed.

(** The collector only pushes: what it returns is [out] followed by what it
    collects from the value. *)
Lemma collectTextPieces_pushes (v : Json) :
  forall out, collectTextPieces v out = out ++ collectTextPieces v [].
Proof.
  induction v as [| b | literal | s | els IH | props IH] using Json_ind; intros out.
  - now rewrite app_nil_r.
  - simpl. destruct b; now rewrite app_nil_r.
  - simpl. destruct (number_is_zero literal); now rewrite app_nil_r.
  - destruct s; simpl; [now rewrite app_nil_r | reflexivity].
  - rewrite !collectTextPieces_array. now apply fold_left_pushes.
  - rewrite !collectTextPieces_object. apply fold_left_pushes.
    clear out. induction IH as [|kv r Hkv _ IHr]; constructor; [|exact IHr].
    intros out. unfold collect_property.
    destruct (snd kv) as [| b | literal | s | els | ps] eqn:E;
      try (apply Hkv).
    destruct (text_key_test (fst kv)); [|apply Hkv].
    rewrite Hkv. rewrite (Hkv ([] ++ [s])). now rewrite <- app_assoc.
Qed.

Lemma usageMetadata_is_no_text_key : text_key_test (str "usageMetadata") = false.
Proof. reflexivity. Qed.

Lemma collect_property_usageMetadata (u : Json) (out : list jsstring) :
  collect_property out (str "usageMetadata", u) = out ++ collectTextPieces u [].
Proof.
  unfold collect_property. cbn [fst snd]. rewrite usageMetadata_is_no_text_key.
  destruct u; apply collectTextPieces_pushes.
Qed.

Lemma collectTextPieces_usageMetadata (before after : list (jsstring * Json))
    (u1 u2 : Json) (out : list jsstring) :
  collectTextPieces u1 [] = collectTextPieces u2 [] ->
  collectTextPieces (JObject (before ++ (str "usageMetadata", u1) :: after)) out
  = collectTextPieces (JObject (before ++ (str "usageMetadata", u2) :: after)) out.
Proof.
  intros H. rewrite !collectTextPieces_object, !fold_left_app. simpl.
  rewrite !collect_property_usageMetadata. now rewrite H.
Qed.

Lemma jsstring_eqb_eq (a b : jsstring) : jsstring_eqb a b = true <-> a = b.
Proof.
  unfold jsstring_eqb. destruct (list_eq_dec N.eq_dec a b); split; congruence.
Qed.

Lemma lookup_other_key (k k' : jsstring) (before after : list (jsstring * Json))
    (u1 u2 : Json) :
  jsstring_eqb k' k = false ->
  lookup k (before ++ (k', u1) :: after) = lookup k (before ++ (k', u2) :: after).
Proof.
  intros Hk. induction before as [|[k0 v0] r IH]; simpl.
  - now rewrite Hk.
  - now rewrite IH.
Qed.

Lemma first_candidate_usageMetadata (before after : list (jsstring * Json))
    (u1 u2 : Json) :
  first_candidate (JObject (before ++ (str "usageMetadata", u1) :: after))
  = first_candidate (JObject (before ++ (str "usageMetadata", u2) :: after)).
Proof.
  unfold first_candidate, get.
  now rewrite (lookup_other_key (str "candidates") (str "usageMetadata") before after u1 u2).
Qed.

(** ** The answer of the handler *)

Lemma fst_bind {A B : Type} (m : M A) (k : A -> M B) :
  fst (bind m k) = fst (k (fst m)).
Proof.
  unfold bind. destruct m as [a evs]. simpl. now destruct (k a).
Qed.

Lemma snd_bind {A B : Type} (m : M A) (k : A -> M B) :
  snd (bind m k) = snd m ++ snd (k (fst m)).
Proof.
  unfold bind. destruct m as [a evs]. simpl. now destruct (k a).
Qed.

Lemma on_response_answer (JSON_stringify : Json -> jsstring) (data : Json) :
  fst (on_response JSON_stringify data) = answer JSON_stringify data.
Proof.
  unfold on_response, answer. cbv zeta. rewrite !fst_bind.
  destruct (first_candidate data) as [candidate|]; [|now rewrite fst_bind].
  destruct (truthy candidate); simpl negb; cbv iota; [|now rewrite fst_bind].
  rewrite !fst_bind.
  destruct (fst (parse_with_salvage _)); reflexivity.
Qed.

Lemma process_pdf_resolved (JSON_stringify : Json -> jsstring) (env : Env)
    (axios_post : Upstream) (req : Request) (f : File) (key : jsstring) (data : Json) :
  file req = Some f ->
  GEMINI_API_KEY env = Some key -> key <> [] ->
  (forall url payload config, axios_post url payload config = Resolved data) ->
  fst (process_pdf JSON_stringify env axios_post req) = answer JSON_stringify data.
Proof.
  intros Hf Hk Hne Hup. unfold process_pdf. rewrite Hf, Hk.
  destruct key as [|c key']; [congruence|].
  rewrite !fst_bind. rewrite Hup. apply on_response_answer.
Qed.

(** Line 141, case by case. *)
Lemma usage_of_cases (data : Json) :
  usage_of data
  = let fallback :=
      match get data (str "usage") with
      | Some w => if truthy w then w else JNull
      | None => JNull
      end in
    match get data (str "usageMetadata") with
    | Some u => if truthy u then u else fallback
    | None => fallback
    end.
Proof.
  unfold usage_of, or_else. cbv zeta.
  destruct (get data (str "usageMetadata")) as [u|];
    [destruct (truthy u) eqn:Eu|];
    cbv beta iota; rewrite ?Eu; try reflexivity;
    (destruct (get data (str "usage")) as [w|];
     [destruct (truthy w) eqn:Ew|];
     cbv beta iota; rewrite ?Ew; reflexivity).
Qed.

(** ** The earlier variants *)

(** A variant returns the parsed text of the first part of the first
    candidate whenever that text is valid JSON. *)
Lemma process_pdf_direct_returns_text_part
    (JSON_stringify : Json -> jsstring) (Number_toString : jsstring -> jsstring)
    (variant : Variant) (env : Env) (axios_post : Upstream) (req : Request)
    (f : File) (data : Json) (text : jsstring) (v : Json) :
  file req = Some f ->
  (forall url payload config, axios_post url payload config = Resolved data) ->
  text_part data = Some (Some (JString text)) ->
  JSON_parse text = Normal v ->
  fst (process_pdf_direct JSON_stringify Number_toString variant env axios_post req)
  = {| status := 200; body := ExtractedJSON v |}.
Proof.
  intros Hf Hup Htext Hparse. unfold process_pdf_direct. rewrite Hf.
  rewrite !fst_bind. rewrite Hup, Htext. rewrite !fst_bind.
  unfold try_JSON_parse. rewrite !fst_bind. simpl ToString. simpl fst.
  now rewrite Hparse.
Qed.

Lemma process_pdf_direct_missing_document
    (JSON_stringify : Json -> jsstring) (Number_toString : jsstring -> jsstring)
    (variant : Variant) (env : Env) (axios_post : Upstream) (req : Request) :
  file req = None ->
  process_pdf_direct JSON_stringify Number_toString variant env axios_post req
  = ({| status := 400; body := ErrorOnly (str "No PDF file uploaded.") |}, []).
Proof.
  intros Hf. unfold process_pdf_direct. now rewrite Hf.
Qed.

(* ================================================================= *)
(** * The properties of the specification *)

(** C1. The specification says that for every upstream response whose first
    candidate's text part is valid JSON, the handler returns that parsed JSON
    through the direct parse.  The code does not: on the response of the end-to-end scenario the
    text part is valid JSON, yet the collector gathers it four times (twice
    from the candidate, twice more from the whole response), the joined text
    is four copies separated by line feeds, all three parses fail, and the
    handler answers 500 with the salvage-failure body.  The earlier variants
    of the handler answer the same response with the parsed statement. *)
Theorem C1_scenario_response_is_not_extracted
    (JSON_stringify : Json -> jsstring) (Number_toString : jsstring -> jsstring) :
  JSON_parse scenario_text = Normal scenario_statement /\
  first_candidate scenario_response = Some scenario_candidate /\
  text_part scenario_response = Some (Some (JString scenario_text)) /\
  (forall variant,
      fst (process_pdf_direct JSON_stringify Number_toString variant sample_env
             (upstream_returning scenario_response) sample_request)
      = {| status := 200; body := ExtractedJSON scenario_statement |}) /\
  collectTextPieces scenario_response (collectTextPieces scenario_candidate [])
  = [scenario_text; scenario_text; scenario_text; scenario_text] /\
  fst (process_pdf JSON_stringify sample_env (upstream_returning scenario_response)
         sample_request)
  = {| status := 500;
       body :=
         SalvageFailed (str "Failed to parse JSON from Gemini response")
           {| rejected :=
                join [NEWLINE] [scenario_text; scenario_text; scenario_text; scenario_text] |}
           (join [NEWLINE] [scenario_text; scenario_text; scenario_text; scenario_text])
           4 JNull (slice (JSON_stringify scenario_candidate) 0 32000) |}.
Proof.
  repeat split; try (vm_compute; reflexivity).
  intros variant.
  apply (process_pdf_direct_returns_text_part JSON_stringify Number_toString variant
           sample_env (upstream_returning scenario_response) sample_request
           {| buffer := [37; 80; 68; 70]%N |} scenario_response scenario_text);
    reflexivity.
Qed.

(** C2. The specification says that on the mapping with [output: hello] and
    [nested: (text: world)] the collector returns the two fragments hello,
    world.  The code returns
    four: each string under a matching key is pushed at line 49 and pushed
    again by the recursive call of line 51. *)
Theorem C2_example_fragments_are_doubled :
  collectTextPieces output_nested_example []
  = [str "hello"; str "hello"; str "world"; str "world"].
Proof. reflexivity. Qed.

(** C3. The specification says that a string under a key that does not match
    the text heuristic is never emitted.  The code emits it: the recursive call of line 51 reaches
    the string branch of lines 36-38, which pushes whatever the key was. *)
Theorem C3_string_under_other_key_is_emitted (k s : jsstring) :
  text_key_test k = false -> s <> [] ->
  collectTextPieces (JObject [(k, JString s)]) [] = [s].
Proof.
  intros Hk Hs. destruct s as [|c r]; [congruence|].
  simpl. now rewrite Hk.
Qed.

(** C3 at work: the role of a candidate's content is collected. *)
Lemma C3_role_model_is_emitted :
  collectTextPieces (JObject [(str "role", JString (str "model"))]) [] = [str "model"].
Proof.
  apply (C3_string_under_other_key_is_emitted (str "role") (str "model")).
  - reflexivity.
  - discriminate.
Defined.

(** C4. The salvage parser is the chain of exactly three strategies tried in
    order (the full text; the span from the first left brace to the last
    right brace when the latter strictly follows; the prefix through the last
    right brace when its position is greater than zero): its value and the
    texts it parses are those of the chain, which stops at the first text that
    parses, every text parsed before it having failed. *)
Theorem C4_salvage_is_the_ordered_strategy_chain (text : jsstring) :
  List.length salvage_strategies = 3%nat /\
  (value_of (fst (parse_with_salvage text)),
   parse_attempts (snd (parse_with_salvage text)))
  = first_success text salvage_strategies /\
  (forall v,
      fst (parse_with_salvage text) = Normal v ->
      exists before t,
        parse_attempts (snd (parse_with_salvage text)) = before ++ [t] /\
        JSON_parse t = Normal v /\
        Forall (fun t' => value_of (JSON_parse t') = None) before).
Proof.
  split; [reflexivity|]. split; [apply parse_with_salvage_chain|].
  intros v Hv. pose proof (parse_with_salvage_chain text) as H.
  rewrite Hv in H. simpl value_of in H.
  apply (first_success_last text salvage_strategies). now rewrite <- H.
Qed.

(** C5 as stated fails: with prefix a left bracket and suffix a right bracket
    around the object [{}], the whole text is valid JSON, the direct parse
    succeeds and the result is the array, not the embedded object. *)
Lemma C5_bracketed_object_parses_as_array :
  brace_free (jsq "[") = true /\ brace_free (jsq "]") = true /\
  JSON_parse (jsq "{}") = Normal (JObject []) /\
  parse_with_salvage (jsq "[" ++ jsq "{}" ++ jsq "]")
  = (Normal (JArray [JObject []]), [EvJSONParse (jsq "[{}]")]).
Proof. repeat split. Qed.

(** C5, amended. For a text made of a brace-free prefix, a valid JSON object
    and a brace-free suffix, the salvage parser succeeds: it returns the
    direct parse of the whole text when that succeeds, and otherwise the
    embedded object, found by the outer-brace strategy as the second parse. *)
Theorem C5_embedded_object_is_recovered (prefix mid suffix : jsstring) (v : Json) :
  brace_free prefix = true -> brace_free suffix = true ->
  JSON_parse (LBRACE :: mid ++ [RBRACE]) = Normal v ->
  let text := prefix ++ (LBRACE :: mid ++ [RBRACE]) ++ suffix in
  outer_brace_extraction text = Some (LBRACE :: mid ++ [RBRACE]) /\
  match JSON_parse text with
  | Normal whole =>
      fst (parse_with_salvage text) = Normal whole /\
      parse_attempts (snd (parse_with_salvage text)) = [text]
  | Throw _ =>
      fst (parse_with_salvage text) = Normal v /\
      parse_attempts (snd (parse_with_salvage text)) = [text; LBRACE :: mid ++ [RBRACE]]
  end.
Proof.
  intros Hp Hs Hv text.
  apply brace_free_In in Hp as [Hp _]. apply brace_free_In in Hs as [_ Hs].
  pose proof (outer_brace_embedded prefix mid suffix Hp Hs) as Houter.
  fold text in Houter. split; [exact Houter|].
  pose proof (parse_with_salvage_chain text) as H.
  unfold salvage_strategies in H. cbn [first_success direct_parse] in H.
  destruct (JSON_parse text) as [whole|e].
  - injection H as H1 H2. split; [now apply value_of_Some | exact H2].
  - rewrite Houter in H. rewrite Hv in H. injection H as H1 H2.
    split; [now apply value_of_Some | exact H2].
Qed.

(** C5 at work: an object wrapped in prose. *)
Lemma C5_object_in_prose_is_recovered :
  outer_brace_extraction (str "Here is the data: " ++ jsq "{'a':1}" ++ str " Done.")
  = Some (jsq "{'a':1}") /\
  fst (parse_with_salvage (str "Here is the data: " ++ jsq "{'a':1}" ++ str " Done."))
  = Normal (JObject [(str "a", JNumber (str "1"))]) /\
  parse_attempts
    (snd (parse_with_salvage (str "Here is the data: " ++ jsq "{'a':1}" ++ str " Done.")))
  = [str "Here is the data: " ++ jsq "{'a':1}" ++ str " Done."; jsq "{'a':1}"].
Proof.
  exact (C5_embedded_object_is_recovered (str "Here is the data: ") (jsq "'a':1")
           (str " Done.") (JObject [(str "a", JNumber (str "1"))])
           eq_refl eq_refl eq_refl).
Defined.

(** C6 as stated fails on the empty string: the guard of line 35 returns
    before the string branch, and nothing is emitted. *)
Lemma C6_empty_string_emits_nothing :
  collectTextPieces (JString []) [] = [].
Proof. reflexivity. Qed.

(** C6, amended. For every non-empty string the collector emits that string
    as exactly one fragment, pushed after what [out] already holds. *)
Theorem C6_nonempty_string_is_one_fragment (s : jsstring) (out : list jsstring) :
  s <> [] -> collectTextPieces (JString s) out = out ++ [s].
Proof.
  intros Hs. destruct s as [|c r]; [congruence | reflexivity].
Qed.

(** C6 at work: one string pushed onto an array that holds one. *)
Lemma C6_hello_is_one_fragment :
  collectTextPieces (JString (str "hello")) [str "earlier"] = [str "earlier"; str "hello"].
Proof.
  apply (C6_nonempty_string_is_one_fragment (str "hello") [str "earlier"]).
  discriminate.
Defined.

(** C7 as stated fails where the usage metadata is concerned: a
    [usageMetadata] that is present but falsy is not what the body carries.
    On a response whose [usageMetadata] is 0 and whose [usage] is an object,
    every strategy fails on the (empty) joined text and the body carries the
    [usage] object. *)
Lemma C7_falsy_usageMetadata_is_not_reported :
  get zero_usage_response (str "usageMetadata") = Some (JNumber (str "0")) /\
  value_of (fst (parse_with_salvage
                   (joined_text zero_usage_response
                      (JObject [(str "index", JNumber (str "0"))])))) = None /\
  (forall JSON_stringify,
      fst (process_pdf JSON_stringify sample_env (upstream_returning zero_usage_response)
             sample_request)
      = {| status := 500;
           body := SalvageFailed (str "Failed to parse JSON from Gemini response")
                     {| rejected := [] |} [] 0
                     (JObject [(str "total", JNumber (str "7"))])
                     (slice (JSON_stringify (JObject [(str "index", JNumber (str "0"))]))
                        0 32000) |}).
Proof.
  repeat split.
Qed.

(** C7, amended. When the upload is there, the key is set, the upstream call
    resolves with a candidate, and all three salvage strategies fail on the
    joined text, the handler answers 500 with a body that carries the error of
    the direct parse, the first 32,000 characters at most of the joined text,
    the number of fragments collected, the first 32,000 characters at most of
    the serialized candidate, and as usage metadata the [usageMetadata] of the
    response when it is there and truthy, otherwise its [usage] when that is
    there and truthy, otherwise null. *)
Theorem C7_salvage_exhausted_body
    (JSON_stringify : Json -> jsstring) (env : Env) (axios_post : Upstream)
    (req : Request) (f : File) (key : jsstring) (data candidate : Json) :
  file req = Some f ->
  GEMINI_API_KEY env = Some key -> key <> [] ->
  (forall url payload config, axios_post url payload config = Resolved data) ->
  first_candidate data = Some candidate -> truthy candidate = true ->
  let textPieces := collectTextPieces data (collectTextPieces candidate []) in
  let joinedText := trim (join [NEWLINE] textPieces) in
  Forall (strategy_fails joinedText) salvage_strategies ->
  exists parseErr rawPreview candidatePreview usage,
    fst (process_pdf JSON_stringify env axios_post req)
    = {| status := 500;
         body := SalvageFailed (str "Failed to parse JSON from Gemini response")
                   parseErr rawPreview (List.length textPieces) usage
                   candidatePreview |} /\
    JSON_parse joinedText = Throw parseErr /\
    rawPreview = firstn (Z.to_nat 32000) joinedText /\
    Z.of_nat (List.length rawPreview) <= 32000 /\
    candidatePreview = firstn (Z.to_nat 32000) (JSON_stringify candidate) /\
    Z.of_nat (List.length candidatePreview) <= 32000 /\
    usage
    = (let fallback :=
         match get data (str "usage") with
         | Some w => if truthy w then w else JNull
         | None => JNull
         end in
       match get data (str "usageMetadata") with
       | Some u => if truthy u then u else fallback
       | None => fallback
       end).
Proof.
  intros Hf Hk Hne Hup Hc Ht textPieces joinedText Hfail.
  rewrite (process_pdf_resolved JSON_stringify env axios_post req f key data Hf Hk Hne Hup).
  unfold answer. rewrite Hc, Ht. cbv zeta. fold textPieces. fold joinedText.
  pose proof (parse_with_salvage_chain joinedText) as Hchain.
  pose proof (first_success_all_fail _ _ Hfail) as Hnone.
  destruct (first_success joinedText salvage_strategies) as [r tried].
  simpl in Hnone. subst r. injection Hchain as Hval _.
  destruct (fst (parse_with_salvage joinedText)) as [v|e] eqn:E; [discriminate|].
  apply parse_with_salvage_error in E. subst e.
  exists {| rejected := joinedText |}, (slice joinedText 0 32000),
    (slice (JSON_stringify candidate) 0 32000), (usage_of data).
  repeat split.
  - inversion Hfail as [|s rest Hdirect _]. subst.
    unfold strategy_fails, direct_parse in Hdirect.
    destruct (JSON_parse joinedText) as [v|e] eqn:E; [discriminate|].
    now rewrite (JSON_parse_Throw _ _ E).
  - now apply slice_prefix.
  - now apply slice_prefix_length.
  - now apply slice_prefix.
  - now apply slice_prefix_length.
  - apply usage_of_cases.
Qed.

(** C7 at work: the response of the end-to-end scenario with usage counters,
    whose joined text no strategy can parse; the body carries the counters. *)
Lemma C7_scenario_body_with_usage :
  exists parseErr rawPreview candidatePreview usage,
    fst (process_pdf opaque_stringify sample_env
           (upstream_returning scenario_response_with_usage) sample_request)
    = {| status := 500;
         body := SalvageFailed (str "Failed to parse JSON from Gemini response")
                   parseErr rawPreview
                   (List.length
                      (collectTextPieces scenario_response_with_usage
                         (collectTextPieces scenario_candidate [])))
                   usage candidatePreview |} /\
    JSON_parse
      (trim (join [NEWLINE]
               (collectTextPieces scenario_response_with_usage
                  (collectTextPieces scenario_candidate []))))
    = Throw parseErr /\
    rawPreview
    = firstn (Z.to_nat 32000)
        (trim (join [NEWLINE]
                 (collectTextPieces scenario_response_with_usage
                    (collectTextPieces scenario_candidate [])))) /\
    Z.of_nat (List.length rawPreview) <= 32000 /\
    candidatePreview = firstn (Z.to_nat 32000) (opaque_stringify scenario_candidate) /\
    Z.of_nat (List.length candidatePreview) <= 32000 /\
    usage = scenario_usage.
Proof.
  apply (C7_salvage_exhausted_body opaque_stringify sample_env
           (upstream_returning scenario_response_with_usage) sample_request
           {| buffer := [37; 80; 68; 70]%N |} (str "secret")
           scenario_response_with_usage scenario_candidate).
  - reflexivity.
  - reflexivity.
  - discriminate.
  - reflexivity.
  - reflexivity.
  - reflexivity.
  - repeat constructor; vm_compute; reflexivity.
Defined.

(** C8. A request without an uploaded document is answered 400 with the error
    body at once: nothing is encoded, no upstream call is made, nothing is
    parsed or logged. *)
Theorem C8_missing_document_short_circuits
    (JSON_stringify : Json -> jsstring) (env : Env) (axios_post : Upstream)
    (req : Request) :
  file req = None ->
  process_pdf JSON_stringify env axios_post req
  = ({| status := 400; body := ErrorOnly (str "No PDF file uploaded.") |}, []) /\
  upstream_calls (snd (process_pdf JSON_stringify env axios_post req)) = 0%nat.
Proof.
  intros Hf. unfold process_pdf. rewrite Hf. split; reflexivity.
Qed.

(** C8 at work: a request without a file. *)
Lemma C8_no_file_request :
  process_pdf opaque_stringify sample_env (upstream_returning scenario_response)
    no_file_request
  = ({| status := 400; body := ErrorOnly (str "No PDF file uploaded.") |}, []) /\
  upstream_calls
    (snd (process_pdf opaque_stringify sample_env (upstream_returning scenario_response)
            no_file_request)) = 0%nat.
Proof.
  apply (C8_missing_document_short_circuits opaque_stringify sample_env
           (upstream_returning scenario_response) no_file_request).
  reflexivity.
Defined.

(** C9 as stated fails: the collector also walks the [usageMetadata] subtree
    of the response, so a string there becomes part of the joined text.  Two
    responses that differ only in that subtree: one is answered 200 with the
    object parsed from it, the other 500. *)
Lemma C9_usageMetadata_text_changes_the_branch :
  differ_only_in_usageMetadata (usage_response (jsq "{}")) (usage_response (str "oops")) /\
  (forall JSON_stringify,
      branch (fst (process_pdf JSON_stringify sample_env
                     (upstream_returning (usage_response (jsq "{}"))) sample_request))
      = Success (JObject [])) /\
  (forall JSON_stringify,
      branch (fst (process_pdf JSON_stringify sample_env
                     (upstream_returning (usage_response (str "oops"))) sample_request))
      = SalvageExhaustedError).
Proof.
  split; [|split].
  - exists [(str "candidates", JArray [JObject [(str "index", JNumber (str "0"))]])], [],
      (JObject [(str "note", JString (jsq "{}"))]),
      (JObject [(str "note", JString (str "oops"))]).
    split; reflexivity.
  - intros JSON_stringify. vm_compute. reflexivity.
  - intros JSON_stringify. vm_compute. reflexivity.
Qed.

(** C9, amended. For two responses that differ only in their [usageMetadata]
    subtree, and whose subtrees give the collector the same fragments (none,
    when they hold counters only), the handler takes the same branch and on
    success returns the same value; in the salvage-failure body only the
    [usageMetadata] field differs. *)
Theorem C9_usage_only_reaches_diagnostics
    (JSON_stringify : Json -> jsstring) (env : Env) (req : Request)
    (before after : list (jsstring * Json)) (u1 u2 : Json) :
  collectTextPieces u1 [] = collectTextPieces u2 [] ->
  let r1 := JObject (before ++ (str "usageMetadata", u1) :: after) in
  let r2 := JObject (before ++ (str "usageMetadata", u2) :: after) in
  let answer1 := fst (process_pdf JSON_stringify env (upstream_returning r1) req) in
  let answer2 := fst (process_pdf JSON_stringify env (upstream_returning r2) req) in
  branch answer1 = branch answer2 /\
  (forall error message rawPreview pieces usage1 candidatePreview,
      body answer1 = SalvageFailed error message rawPreview pieces usage1 candidatePreview ->
      status answer2 = status answer1 /\
      body answer2
      = SalvageFailed error message rawPreview pieces (usage_of r2) candidatePreview).
Proof.
  intros H r1 r2 answer1 answer2. subst answer1 answer2.
  unfold process_pdf.
  destruct (file req) as [f|]; [|split; [reflexivity | discriminate]].
  rewrite !fst_bind.
  destruct (GEMINI_API_KEY env) as [[|c key]|];
    try (split; [reflexivity | discriminate]).
  rewrite !fst_bind. unfold upstream_returning. rewrite !on_response_answer.
  unfold answer. subst r1 r2.
  rewrite (first_candidate_usageMetadata before after u1 u2).
  destruct (first_candidate _) as [candidate|]; [|split; [reflexivity | discriminate]].
  destruct (truthy candidate); [|split; [reflexivity | discriminate]].
  cbv zeta.
  rewrite (collectTextPieces_usageMetadata before after u1 u2 _ H).
  destruct (fst (parse_with_salvage _)) as [v|e].
  - split; [reflexivity | discriminate].
  - split; [reflexivity|].
    intros error message rawPreview pieces usage1 candidatePreview. simpl.
    intros [= <- <- <- <- _ <-]. split; reflexivity.
Qed.

(** C9 at work: two responses whose usage metadata hold different counters. *)
Lemma C9_token_counters_same_branch :
  branch (fst (process_pdf opaque_stringify sample_env
                 (upstream_returning (counters_response (str "10"))) sample_request))
  = branch (fst (process_pdf opaque_stringify sample_env
                   (upstream_returning (counters_response (str "20"))) sample_request)).
Proof.
  apply (C9_usage_only_reaches_diagnostics opaque_stringify sample_env sample_request
           [(str "candidates", JArray [JObject [(str "index", JNumber (str "0"))]])] []
           (JObject [(str "totalTokenCount", JNumber (str "10"))])
           (JObject [(str "totalTokenCount", JNumber (str "20"))])).
  reflexivity.
Defined.

(** C10. The last-close strategy is redundant: without it the salvage parser
    returns the same result, value or error, on every text; whenever the
    prefix through the last right brace parses, the outer-brace span exists
    and parses to the same value. *)
Theorem C10_last_close_strategy_is_redundant (text : jsstring) :
  fst (parse_with_salvage text) = fst (parse_with_salvage_no_last_close text) /\
  (forall v,
      lastIndexOf text RBRACE > 0 ->
      JSON_parse (slice text 0 (lastIndexOf text RBRACE + 1)) = Normal v ->
      indexOf text LBRACE <> -1 /\
      lastIndexOf text RBRACE > indexOf text LBRACE /\
      JSON_parse (slice text (indexOf text LBRACE) (lastIndexOf text RBRACE + 1))
      = Normal v).
Proof.
  split.
  - pose proof (parse_with_salvage_chain text) as H3.
    pose proof (parse_with_salvage_no_last_close_chain text) as H2.
    pose proof (first_success_without_last_close text) as Heq.
    rewrite <- H3, <- H2 in Heq. simpl in Heq.
    destruct (fst (parse_with_salvage text)) as [v|e] eqn:E3;
      destruct (fst (parse_with_salvage_no_last_close text)) as [v'|e'] eqn:E2;
      simpl in Heq; try congruence.
    apply parse_with_salvage_error in E3.
    apply parse_with_salvage_no_last_close_error in E2. congruence.
  - intros v Hpos Hparse.
    pose proof (last_close_code text) as H3.
    destruct (Z.gtb_spec (lastIndexOf text RBRACE) 0) as [_|Hle]; [|lia].
    symmetry in H3.
    destruct (last_close_implies_outer_brace _ _ _ H3 Hparse) as (t2 & Ht2 & Hv).
    rewrite <- outer_brace_code in Ht2.
    destruct (Z.eqb_spec (indexOf text LBRACE) (-1)) as [|Hfirst]; [discriminate|].
    destruct (Z.eqb_spec (lastIndexOf text RBRACE) (-1)) as [|_]; [discriminate|].
    destruct (Z.gtb_spec (lastIndexOf text RBRACE) (indexOf text LBRACE)) as [Hgt|];
      [|discriminate].
    simpl in Ht2. injection Ht2 as <-.
    repeat split; [exact Hfirst | lia | exact Hv].
Qed.

(** C10 at work: an object followed by one stray character. *)
Lemma C10_object_then_garbage :
  indexOf (jsq "{}x") LBRACE <> -1 /\
  lastIndexOf (jsq "{}x") RBRACE > indexOf (jsq "{}x") LBRACE /\
  JSON_parse (slice (jsq "{}x") (indexOf (jsq "{}x") LBRACE)
                (lastIndexOf (jsq "{}x") RBRACE + 1))
  = Normal (JObject []).
Proof.
  exact (proj2 (C10_last_close_strategy_is_redundant (jsq "{}x")) (JObject [])
           eq_refl eq_refl).
Defined.

(* ================================================================= *)
(** * Further properties of the code *)

(** ** The collector as a flat map *)

Lemma fold_left_flat_map {A : Type} (f : list jsstring -> A -> list jsstring)
    (g : A -> list jsstring) (l : list A) :
  (forall x out, In x l -> f out x = out ++ g x) ->
  forall out, fold_left f l out = out ++ flat_map g l.
Proof.
  induction l as [|x r IH]; intros Hf out; simpl.
  - now rewrite app_nil_r.
  - rewrite IH by (intros y o Hy; apply Hf; now right).
    rewrite Hf by now left. now rewrite app_assoc.
Qed.

Lemma collect_property_flat (out : list jsstring) (kv : jsstring * Json) :
  collect_property out kv
  = out ++ keyed_push (fst kv) (snd kv) ++ collectTextPieces (snd kv) [].
Proof.
  unfold collect_property, keyed_push. rewrite collectTextPieces_pushes.
  destruct (snd kv) as [| b | literal | s | els | ps]; try reflexivity.
  destruct (text_key_test (fst kv)); [|reflexivity].
  now rewrite <- app_assoc.
Qed.

Lemma collect_array_flat (els : list Json) (out : list jsstring) :
  collectTextPieces (JArray els) out
  = out ++ flat_map (fun el => collectTextPieces el []) els.
Proof.
  rewrite collectTextPieces_array. apply fold_left_flat_map.
  intros el o _. apply collectTextPieces_pushes.
Qed.

Lemma collect_object_flat (props : list (jsstring * Json)) (out : list jsstring) :
  collectTextPieces (JObject props) out
  = out ++ flat_map (fun kv => keyed_push (fst kv) (snd kv)
                               ++ collectTextPieces (snd kv) []) props.
Proof.
  rewrite collectTextPieces_object. apply fold_left_flat_map.
  intros kv o _. apply collect_property_flat.
Qed.

Lemma keyed_push_values (k : jsstring) (v : Json) :
  incl (keyed_push k v) (string_values v).
Proof.
  unfold keyed_push. destruct v; try (intros x []).
  destruct (text_key_test k); [apply incl_refl | intros x []].
Qed.


Lemma collect_values (v : Json) :
  incl (collectTextPieces v []) (string_values v).
Proof.
  induction v as [| b | literal | s | els IH | props IH] using Json_ind.
  - intros x [].
  - destruct b; intros x [].
  - simpl. destruct (number_is_zero literal); intros x [].
  - destruct s; [intros x [] | apply incl_refl].
  - rewrite collect_array_flat. simpl.
    induction IH as [|el r Hel _ IHr]; simpl; [intros x []|].
    apply incl_app; [now apply incl_appl | now apply incl_appr].
  - rewrite collect_object_flat. simpl.
    induction IH as [|kv r Hkv _ IHr]; simpl; [intros x []|].
    apply incl_app; [|now apply incl_appr].
    apply incl_appl. apply incl_app; [apply keyed_push_values | exact Hkv].
Qed.

Lemma values_collected (v : Json) (s : jsstring) :
  In s (string_values v) -> s <> [] -> In s (collectTextPieces v []).
Proof.
  induction v as [| b | literal | s0 | els IH | props IH] using Json_ind;
    simpl string_values; intros Hin Hne; try (now destruct Hin).
  - destruct Hin as [<-|[]]. destruct s0; [congruence | now left].
  - rewrite collect_array_flat. simpl. rewrite in_flat_map in *.
    destruct Hin as (el & Hel & Hs). exists el. split; [exact Hel|].
    rewrite Forall_forall in IH. now apply IH.
  - rewrite collect_object_flat. simpl. rewrite in_flat_map in *.
    destruct Hin as (kv & Hkv & Hs). exists kv. split; [exact Hkv|].
    rewrite Forall_forall in IH. apply in_or_app. right. now apply IH.
Qed.


(** X1. The collector only appends: whatever the value, the array it was
    given comes back unchanged at the front of the result, followed by what
    the value yields. *)
Theorem X1_collector_only_appends (v : Json) (out : list jsstring) :
  collectTextPieces v out = out ++ collectTextPieces v [].
Proof. apply collectTextPieces_pushes. Qed.

(** X2. Every fragment the collector emits is a string value that occurs in
    the input: it never invents or alters text. *)
Theorem X2_fragments_are_string_values (v : Json) (s : jsstring) :
  In s (collectTextPieces v []) -> In s (string_values v).
Proof. apply collect_values. Qed.

(** X2 at work: the fragment collected from a role is a string of the input. *)
Lemma X2_role_fragment_is_a_value :
  In (str "model") (string_values (JObject [(str "role", JString (str "model"))])).
Proof.
  apply (X2_fragments_are_string_values
           (JObject [(str "role", JString (str "model"))]) (str "model")).
  simpl. now left.
Defined.

(** X3. Every non-empty string value of the input is emitted, whatever the
    keys on the way to it. *)
Theorem X3_nonempty_string_values_are_collected (v : Json) (s : jsstring) :
  In s (string_values v) -> s <> [] -> In s (collectTextPieces v []).
Proof. apply values_collected. Qed.

(** X3 at work: the finish reason of a candidate ends up among the fragments. *)
Lemma X3_finish_reason_is_collected :
  In (str "STOP")
    (collectTextPieces
       (JObject [(str "candidates",
                  JArray [JObject [(str "finishReason", JString (str "STOP"))]])]) []).
Proof.
  apply (X3_nonempty_string_values_are_collected
           (JObject [(str "candidates",
                      JArray [JObject [(str "finishReason", JString (str "STOP"))]])])
           (str "STOP")).
  - simpl. now left.
  - discriminate.
Defined.

(** X4. A value without any string value yields no fragment: the array given
    comes back as it was. *)
Theorem X4_no_strings_no_fragments (v : Json) (out : list jsstring) :
  string_values v = [] -> collectTextPieces v out = out.
Proof.
  intros H. rewrite collectTextPieces_pushes.
  pose proof (collect_values v) as Hincl. rewrite H in Hincl.
  destruct (collectTextPieces v []) as [|x r]; [now rewrite app_nil_r|].
  destruct (Hincl x). now left.
Qed.

(** X4 at work: an object of counters, a flag and a null adds nothing. *)
Lemma X4_counters_yield_nothing :
  collectTextPieces
    (JObject [(str "totalTokenCount", JNumber (str "10")); (str "cached", JBool true);
              (str "details", JArray [JNull])])
    [str "kept"] = [str "kept"].
Proof.
  apply (X4_no_strings_no_fragments
           (JObject [(str "totalTokenCount", JNumber (str "10")); (str "cached", JBool true);
                     (str "details", JArray [JNull])])
           [str "kept"]).
  reflexivity.
Defined.


(** X6. The walk is in order and compositional: the fragments of an array are
    those of its elements one after the other, and the fragments of an object
    are, property after property, the keyed push followed by the fragments of
    the value. *)
Theorem X6_collector_concatenates_in_order
    (els els' : list Json) (props props' : list (jsstring * Json)) :
  collectTextPieces (JArray (els ++ els')) []
  = collectTextPieces (JArray els) [] ++ collectTextPieces (JArray els') [] /\
  collectTextPieces (JObject (props ++ props')) []
  = collectTextPieces (JObject props) [] ++ collectTextPieces (JObject props') [] /\
  (forall el, collectTextPieces (JArray (el :: els)) []
              = collectTextPieces el [] ++ collectTextPieces (JArray els) []) /\
  (forall k v, collectTextPieces (JObject ((k, v) :: props)) []
               = keyed_push k v ++ collectTextPieces v []
                 ++ collectTextPieces (JObject props) []).
Proof.
  repeat split; intros;
    rewrite ?collect_array_flat, ?collect_object_flat; simpl;
    rewrite ?flat_map_app, <- ?app_assoc; reflexivity.
Qed.

(** X7. A string under a key that matches the text heuristic is emitted twice
    when it is not empty, and once, as an empty fragment, when it is. *)
Theorem X7_string_under_text_key (k s : jsstring) :
  text_key_test k = true ->
  collectTextPieces (JObject [(k, JString s)]) []
  = match s with
    | [] => [[]]
    | _ :: _ => [s; s]
    end.
Proof.
  intros Hk. simpl. rewrite Hk. now destruct s.
Qed.

(** X7 at work: a key that contains the word text in another case. *)
Lemma X7_text_key_examples :
  collectTextPieces (JObject [(str "responseText", JString (str "hi"))]) []
  = [str "hi"; str "hi"].
Proof.
  apply (X7_string_under_text_key (str "responseText") (str "hi")).
  reflexivity.
Defined.

(** ** The run of the handler *)

Lemma upstream_calls_app (a b : list Event) :
  upstream_calls (a ++ b) = (upstream_calls a + upstream_calls b)%nat.
Proof.
  induction a as [|e r IH]; simpl; [reflexivity|].
  destruct e; simpl; now rewrite IH.
Qed.

Lemma parse_attempts_app (a b : list Event) :
  parse_attempts (a ++ b) = parse_attempts a ++ parse_attempts b.
Proof.
  induction a as [|e r IH]; simpl; [reflexivity|].
  destruct e; simpl; now rewrite IH.
Qed.

Lemma parse_with_salvage_no_upstream_call (text : jsstring) :
  upstream_calls (snd (parse_with_salvage text)) = 0%nat.
Proof.
  unfold parse_with_salvage, try_JSON_parse, console, bind, emit, ret.
  destruct (JSON_parse text) as [v|e]; [reflexivity|].
  destruct (negb (indexOf text LBRACE =? -1) && negb (lastIndexOf text RBRACE =? -1)
            && (lastIndexOf text RBRACE >? indexOf text LBRACE)).
  - destruct (JSON_parse (slice text (indexOf text LBRACE) (lastIndexOf text RBRACE + 1)));
      [reflexivity|].
    destruct (lastIndexOf text RBRACE >? 0); [|reflexivity].
    destruct (JSON_parse (slice text 0 (lastIndexOf text RBRACE + 1))); reflexivity.
  - destruct (lastIndexOf text RBRACE >? 0); [|reflexivity].
    destruct (JSON_parse (slice text 0 (lastIndexOf text RBRACE + 1))); reflexivity.
Qed.

Lemma on_response_no_upstream_call (JSON_stringify : Json -> jsstring) (data : Json) :
  upstream_calls (snd (on_response JSON_stringify data)) = 0%nat.
Proof.
  unfold on_response, bind, console, emit, ret.
  destruct (first_candidate data) as [candidate|]; [|reflexivity].
  destruct (truthy candidate); simpl negb; cbv iota; [|reflexivity].
  pose proof (parse_with_salvage_no_upstream_call
                (trim (join [NEWLINE]
                         (collectTextPieces data (collectTextPieces candidate []))))) as H.
  destruct (parse_with_salvage _) as [r evs]. simpl snd in H.
  destruct r; cbn [snd app upstream_calls]; rewrite upstream_calls_app, H; reflexivity.
Qed.

Lemma on_response_attempts (JSON_stringify : Json -> jsstring) (data : Json) :
  parse_attempts (snd (on_response JSON_stringify data))
  = match first_candidate data with
    | Some candidate =>
        if truthy candidate
        then parse_attempts (snd (parse_with_salvage (joined_text data candidate)))
        else []
    | None => []
    end.
Proof.
  unfold on_response, joined_text, bind, console, emit, ret.
  destruct (first_candidate data) as [candidate|]; [|reflexivity].
  destruct (truthy candidate); simpl negb; cbv iota; [|reflexivity].
  destruct (parse_with_salvage _) as [r evs].
  destruct r; cbn [snd app parse_attempts]; rewrite parse_attempts_app;
    simpl; now rewrite app_nil_r.
Qed.

(** The handler, branch by branch: its answer and the effects in order. *)
Lemma process_pdf_run (JSON_stringify : Json -> jsstring) (env : Env)
    (axios_post : Upstream) (req : Request) :
  process_pdf JSON_stringify env axios_post req
  = match file req with
    | None => ({| status := 400; body := ErrorOnly (str "No PDF file uploaded.") |}, [])
    | Some f =>
        match GEMINI_API_KEY env with
        | None | Some [] =>
            ({| status := 500; body := ErrorOnly (str "GEMINI_API_KEY not set in .env") |},
             [EvToBase64 (buffer f)])
        | Some (c :: k) =>
            let key := c :: k in
            let url := upstream_url env key in
            let payload := upstream_payload JSON_stringify env f in
            let config := upstream_config env in
            let after :=
              match axios_post url payload config with
              | Resolved data => on_response JSON_stringify data
              | Rejected response_data message =>
                  ({| status := 500;
                      body := UpstreamFailed (str "Failed to process PDF with Gemini AI.")
                                (match response_data with
                                 | Some JNull | None => inr message
                                 | Some d => inl d
                                 end) |},
                   [EvConsole ERROR (str "Error processing PDF with Gemini:")
                      [match or_else response_data None with
                       | Some d => ArgJson d
                       | None => ArgText message
                       end]])
              end in
            (fst after, EvToBase64 (buffer f) :: EvAxiosPost url payload config :: snd after)
        end
    end.
Proof.
  unfold process_pdf, upstream_url, upstream_payload, upstream_config.
  destruct (file req) as [f|]; [|reflexivity].
  destruct (GEMINI_API_KEY env) as [[|c k]|]; try reflexivity.
  cbv zeta. unfold bind, emit, console, ret.
  destruct (axios_post _ _ _) as [data|rd msg].
  - now destruct (on_response JSON_stringify data).
  - reflexivity.
Qed.

Lemma answer_status (JSON_stringify : Json -> jsstring) (data : Json) :
  status (answer JSON_stringify data) = 200 \/ status (answer JSON_stringify data) = 500.
Proof.
  unfold answer. cbv zeta.
  destruct (first_candidate data) as [c|]; [|now right].
  destruct (truthy c); [|now right].
  destruct (fst (parse_with_salvage _)); [now left | now right].
Qed.

(** The value the salvage parser returns is parsed from the whole text or
    from its outer-brace span. *)
Lemma parse_with_salvage_source (text : jsstring) (v : Json) :
  fst (parse_with_salvage text) = Normal v ->
  JSON_parse text = Normal v \/
  (indexOf text LBRACE <> -1 /\
   lastIndexOf text RBRACE > indexOf text LBRACE /\
   JSON_parse (slice text (indexOf text LBRACE) (lastIndexOf text RBRACE + 1)) = Normal v).
Proof.
  intros Hv. pose proof (parse_with_salvage_chain text) as H.
  rewrite Hv in H. simpl value_of in H.
  pose proof (first_success_without_last_close text) as Hw.
  rewrite <- H in Hw. simpl fst in Hw.
  cbn [first_success direct_parse] in Hw.
  destruct (JSON_parse text) as [w|e]; [left; simpl in Hw; congruence|].
  right. rewrite <- outer_brace_code in Hw.
  destruct (Z.eqb_spec (indexOf text LBRACE) (-1)) as [|Hfirst]; [discriminate|].
  destruct (Z.eqb_spec (lastIndexOf text RBRACE) (-1)) as [|_]; [discriminate|].
  destruct (Z.gtb_spec (lastIndexOf text RBRACE) (indexOf text LBRACE)) as [Hgt|];
    [|discriminate].
  simpl in Hw.
  destruct (JSON_parse (slice text (indexOf text LBRACE) (lastIndexOf text RBRACE + 1)))
    as [w|e2]; [|discriminate].
  simpl in Hw. repeat split; [exact Hfirst | lia | congruence].
Qed.

(** ** The branches of the handler *)

(** X8. With an upload but no API key (unset or empty), the handler answers
    500 with the configuration error; the upload has been encoded by then,
    and nothing else has happened: no upstream call, no parse, no log. *)
Theorem X8_missing_key_is_reported_before_any_call
    (JSON_stringify : Json -> jsstring) (env : Env) (axios_post : Upstream)
    (req : Request) (f : File) :
  file req = Some f ->
  GEMINI_API_KEY env = None \/ GEMINI_API_KEY env = Some [] ->
  process_pdf JSON_stringify env axios_post req
  = ({| status := 500; body := ErrorOnly (str "GEMINI_API_KEY not set in .env") |},
     [EvToBase64 (buffer f)]).
Proof.
  intros Hf Hk. rewrite process_pdf_run, Hf. now destruct Hk as [-> | ->].
Qed.

(** X8 at work: an environment without the key. *)
Lemma X8_unset_key :
  process_pdf opaque_stringify
    {| GEMINI_API_KEY := None; GEMINI_MODEL := None;
       MAX_OUTPUT_TOKENS := None; AXIOS_TIMEOUT_MS := None |}
    (upstream_returning scenario_response) sample_request
  = ({| status := 500; body := ErrorOnly (str "GEMINI_API_KEY not set in .env") |},
     [EvToBase64 [37; 80; 68; 70]%N]).
Proof.
  apply (X8_missing_key_is_reported_before_any_call opaque_stringify
           {| GEMINI_API_KEY := None; GEMINI_MODEL := None;
              MAX_OUTPUT_TOKENS := None; AXIOS_TIMEOUT_MS := None |}
           (upstream_returning scenario_response) sample_request
           {| buffer := [37; 80; 68; 70]%N |}).
  - reflexivity.
  - now left.
Defined.

(** X9. When the upstream call is rejected, the handler answers 500 with the
    upstream failure body, whose detail is the body of the error response when
    there is one that is not null, and the error message otherwise; exactly
    one call was made and nothing was parsed. *)
Theorem X9_rejected_call_is_reported
    (JSON_stringify : Json -> jsstring) (env : Env) (axios_post : Upstream)
    (req : Request) (f : File) (key : jsstring)
    (response_data : option Json) (message : jsstring) :
  file req = Some f ->
  GEMINI_API_KEY env = Some key -> key <> [] ->
  axios_post (upstream_url env key) (upstream_payload JSON_stringify env f)
    (upstream_config env) = Rejected response_data message ->
  fst (process_pdf JSON_stringify env axios_post req)
  = {| status := 500;
       body := UpstreamFailed (str "Failed to process PDF with Gemini AI.")
                 (match response_data with
                  | Some JNull | None => inr message
                  | Some d => inl d
                  end) |} /\
  upstream_calls (snd (process_pdf JSON_stringify env axios_post req)) = 1%nat /\
  parse_attempts (snd (process_pdf JSON_stringify env axios_post req)) = [].
Proof.
  intros Hf Hk Hne Hup. rewrite process_pdf_run, Hf, Hk.
  destruct key as [|c k]; [congruence|]. cbv zeta. rewrite Hup.
  repeat split.
Qed.

(** X9 at work: a call that times out, with no error response. *)
Lemma X9_timeout_is_reported :
  fst (process_pdf opaque_stringify sample_env
         (fun _ _ _ => Rejected None (str "timeout of 220000ms exceeded")) sample_request)
  = {| status := 500;
       body := UpstreamFailed (str "Failed to process PDF with Gemini AI.")
                 (inr (str "timeout of 220000ms exceeded")) |} /\
  upstream_calls
    (snd (process_pdf opaque_stringify sample_env
            (fun _ _ _ => Rejected None (str "timeout of 220000ms exceeded"))
            sample_request)) = 1%nat /\
  parse_attempts
    (snd (process_pdf opaque_stringify sample_env
            (fun _ _ _ => Rejected None (str "timeout of 220000ms exceeded"))
            sample_request)) = [].
Proof.
  apply (X9_rejected_call_is_reported opaque_stringify sample_env
           (fun _ _ _ => Rejected None (str "timeout of 220000ms exceeded"))
           sample_request {| buffer := [37; 80; 68; 70]%N |} (str "secret")
           None (str "timeout of 220000ms exceeded")).
  - reflexivity.
  - reflexivity.
  - discriminate.
  - reflexivity.
Defined.

(** X10. When the call resolves but the response has no first candidate, or a
    falsy one, the handler answers 500 with the no-candidate body, which
    carries the whole response; nothing is collected or parsed. *)
Theorem X10_no_candidate_is_reported
    (JSON_stringify : Json -> jsstring) (env : Env) (axios_post : Upstream)
    (req : Request) (f : File) (key : jsstring) (data : Json) :
  file req = Some f ->
  GEMINI_API_KEY env = Some key -> key <> [] ->
  axios_post (upstream_url env key) (upstream_payload JSON_stringify env f)
    (upstream_config env) = Resolved data ->
  first_candidate data = None \/
  (exists candidate, first_candidate data = Some candidate /\ truthy candidate = false) ->
  fst (process_pdf JSON_stringify env axios_post req)
  = {| status := 500;
       body := NoCandidate (str "No candidate returned from Gemini") data |} /\
  parse_attempts (snd (process_pdf JSON_stringify env axios_post req)) = [].
Proof.
  intros Hf Hk Hne Hup Hc. rewrite process_pdf_run, Hf, Hk.
  destruct key as [|c k]; [congruence|]. cbv zeta. rewrite Hup.
  cbn [fst snd parse_attempts].
  rewrite on_response_answer, on_response_attempts. unfold answer. cbv zeta.
  destruct Hc as [-> | (candidate & -> & ->)]; split; reflexivity.
Qed.

(** X10 at work: a response with an empty list of candidates. *)
Lemma X10_empty_candidates :
  fst (process_pdf opaque_stringify sample_env
         (upstream_returning (JObject [(str "candidates", JArray [])])) sample_request)
  = {| status := 500;
       body := NoCandidate (str "No candidate returned from Gemini")
                 (JObject [(str "candidates", JArray [])]) |} /\
  parse_attempts
    (snd (process_pdf opaque_stringify sample_env
            (upstream_returning (JObject [(str "candidates", JArray [])]))
            sample_request)) = [].
Proof.
  apply (X10_no_candidate_is_reported opaque_stringify sample_env
           (upstream_returning (JObject [(str "candidates", JArray [])]))
           sample_request {| buffer := [37; 80; 68; 70]%N |} (str "secret")
           (JObject [(str "candidates", JArray [])])).
  - reflexivity.
  - reflexivity.
  - discriminate.
  - reflexivity.
  - now left.
Defined.

(** X11. Whatever the request, the environment and the upstream service, the
    handler answers with status 200, 400 or 500, and with 400 exactly when no
    document was uploaded. *)
Theorem X11_status_codes
    (JSON_stringify : Json -> jsstring) (env : Env) (axios_post : Upstream)
    (req : Request) :
  let r := fst (process_pdf JSON_stringify env axios_post req) in
  (status r = 200 \/ status r = 400 \/ status r = 500) /\
  (status r = 400 <-> file req = None).
Proof.
  cbv zeta. rewrite process_pdf_run.
  destruct (file req) as [f|]; [|split; [now right; left | now split]].
  assert (Hsome : Some f <> None :> option File) by discriminate.
  destruct (GEMINI_API_KEY env) as [[|c k]|];
    try (split; [now right; right | split; [discriminate | intros E; now elim Hsome]]).
  cbv zeta. cbn [fst].
  destruct (axios_post _ _ _) as [data|rd msg].
  - rewrite on_response_answer.
    destruct (answer_status JSON_stringify data) as [-> | ->];
      (split; [auto | split; [discriminate | intros E; now elim Hsome]]).
  - split; [now right; right | split; [discriminate | intros E; now elim Hsome]].
Qed.

(** X12. The handler calls the upstream service at most once per request, and
    exactly once when there is an upload and a non-empty API key; the call
    comes right after the encoding of the upload. *)
Theorem X12_one_upstream_call
    (JSON_stringify : Json -> jsstring) (env : Env) (axios_post : Upstream)
    (req : Request) :
  let trace := snd (process_pdf JSON_stringify env axios_post req) in
  upstream_calls trace
  = match file req, GEMINI_API_KEY env with
    | Some _, Some (_ :: _) => 1%nat
    | _, _ => 0%nat
    end /\
  (forall f c k,
      file req = Some f -> GEMINI_API_KEY env = Some (c :: k) ->
      exists rest,
        trace = EvToBase64 (buffer f)
                :: EvAxiosPost (upstream_url env (c :: k))
                     (upstream_payload JSON_stringify env f) (upstream_config env)
                :: rest /\
        upstream_calls rest = 0%nat).
Proof.
  cbv zeta. rewrite process_pdf_run. split.
  - destruct (file req) as [f|]; [|reflexivity].
    destruct (GEMINI_API_KEY env) as [[|c k]|]; try reflexivity.
    cbv zeta. cbn [snd upstream_calls].
    destruct (axios_post _ _ _) as [data|rd msg]; [|reflexivity].
    now rewrite on_response_no_upstream_call.
  - intros f c k -> ->. cbv zeta. cbn [snd]. eexists. split; [reflexivity|].
    destruct (axios_post _ _ _) as [data|rd msg]; [|reflexivity].
    apply on_response_no_upstream_call.
Qed.

(** X12 at work: the trace on the response of the end-to-end scenario. *)
Lemma X12_scenario_trace :
  exists rest,
    snd (process_pdf opaque_stringify sample_env (upstream_returning scenario_response)
           sample_request)
    = EvToBase64 [37; 80; 68; 70]%N
      :: EvAxiosPost (upstream_url sample_env (str "secret"))
           (upstream_payload opaque_stringify sample_env {| buffer := [37; 80; 68; 70]%N |})
           (upstream_config sample_env)
      :: rest /\
    upstream_calls rest = 0%nat.
Proof.
  exact (proj2 (X12_one_upstream_call opaque_stringify sample_env
                  (upstream_returning scenario_response) sample_request)
           {| buffer := [37; 80; 68; 70]%N |} 115%N (str "ecret") eq_refl eq_refl).
Defined.

(** X13. A 200 answer is never made up: it is given only after a resolved
    call with a truthy first candidate, and its body is the value parsed from
    the joined text itself or from the span between its first left brace and
    its last right brace. *)
Theorem X13_success_comes_from_the_joined_text
    (JSON_stringify : Json -> jsstring) (env : Env) (axios_post : Upstream)
    (req : Request) :
  status (fst (process_pdf JSON_stringify env axios_post req)) = 200 ->
  exists f key data candidate v,
    file req = Some f /\ GEMINI_API_KEY env = Some key /\
    axios_post (upstream_url env key) (upstream_payload JSON_stringify env f)
      (upstream_config env) = Resolved data /\
    first_candidate data = Some candidate /\ truthy candidate = true /\
    body (fst (process_pdf JSON_stringify env axios_post req)) = ExtractedJSON v /\
    let text := joined_text data candidate in
    JSON_parse text = Normal v \/
    (indexOf text LBRACE <> -1 /\
     lastIndexOf text RBRACE > indexOf text LBRACE /\
     JSON_parse (slice text (indexOf text LBRACE) (lastIndexOf text RBRACE + 1))
     = Normal v).
Proof.
  rewrite process_pdf_run.
  destruct (file req) as [f|]; [|discriminate].
  destruct (GEMINI_API_KEY env) as [[|c k]|]; try discriminate.
  cbv zeta. cbn [fst].
  destruct (axios_post _ _ _) as [data|rd msg] eqn:Hup; [|discriminate].
  rewrite on_response_answer. unfold answer. cbv zeta.
  destruct (first_candidate data) as [candidate|] eqn:Hc; [|discriminate].
  destruct (truthy candidate) eqn:Ht; [|discriminate].
  fold (joined_text data candidate).
  destruct (fst (parse_with_salvage (joined_text data candidate))) as [v|e] eqn:Hs;
    [|discriminate].
  intros _. exists f, (c :: k), data, candidate, v.
  repeat split; try reflexivity; try assumption.
  now apply parse_with_salvage_source.
Qed.

(** X13 at work: a response answered 200. *)
Lemma X13_object_in_usage_note :
  exists f key data candidate v,
    file sample_request = Some f /\ GEMINI_API_KEY sample_env = Some key /\
    upstream_returning (usage_response (jsq "{}"))
      (upstream_url sample_env key) (upstream_payload opaque_stringify sample_env f)
      (upstream_config sample_env) = Resolved data /\
    first_candidate data = Some candidate /\ truthy candidate = true /\
    body (fst (process_pdf opaque_stringify sample_env
                 (upstream_returning (usage_response (jsq "{}"))) sample_request))
    = ExtractedJSON v /\
    let text := joined_text data candidate in
    JSON_parse text = Normal v \/
    (indexOf text LBRACE <> -1 /\
     lastIndexOf text RBRACE > indexOf text LBRACE /\
     JSON_parse (slice text (indexOf text LBRACE) (lastIndexOf text RBRACE + 1))
     = Normal v).
Proof.
  apply (X13_success_comes_from_the_joined_text opaque_stringify sample_env
           (upstream_returning (usage_response (jsq "{}"))) sample_request).
  vm_compute. reflexivity.
Defined.

(** X14. When the collector finds no fragment at all, the joined text is
    empty, the only parse attempted is that of the empty text, and the
    handler answers 500 with the salvage-failure body: an empty preview and
    zero pieces collected. *)
Theorem X14_nothing_collected
    (JSON_stringify : Json -> jsstring) (env : Env) (axios_post : Upstream)
    (req : Request) (f : File) (key : jsstring) (data candidate : Json) :
  file req = Some f ->
  GEMINI_API_KEY env = Some key -> key <> [] ->
  axios_post (upstream_url env key) (upstream_payload JSON_stringify env f)
    (upstream_config env) = Resolved data ->
  first_candidate data = Some candidate -> truthy candidate = true ->
  collectTextPieces data (collectTextPieces candidate []) = [] ->
  fst (process_pdf JSON_stringify env axios_post req)
  = {| status := 500;
       body := SalvageFailed (str "Failed to parse JSON from Gemini response")
                 {| rejected := [] |} [] 0 (usage_of data)
                 (slice (JSON_stringify candidate) 0 32000) |} /\
  parse_attempts (snd (process_pdf JSON_stringify env axios_post req)) = [[]].
Proof.
  intros Hf Hk Hne Hup Hc Ht Hnone. rewrite process_pdf_run, Hf, Hk.
  destruct key as [|c k]; [congruence|]. cbv zeta. rewrite Hup.
  cbn [fst snd parse_attempts].
  rewrite on_response_answer, on_response_attempts. unfold answer, joined_text.
  cbv zeta. rewrite Hc, Ht, Hnone. split; reflexivity.
Qed.

(** X14 at work: a response that holds numbers only. *)
Lemma X14_counters_only_response :
  fst (process_pdf opaque_stringify sample_env
         (upstream_returning (counters_response (str "10"))) sample_request)
  = {| status := 500;
       body := SalvageFailed (str "Failed to parse JSON from Gemini response")
                 {| rejected := [] |} [] 0 (usage_of (counters_response (str "10")))
                 (slice (opaque_stringify
                           (JObject [(str "index", JNumber (str "0"))])) 0 32000) |} /\
  parse_attempts
    (snd (process_pdf opaque_stringify sample_env
            (upstream_returning (counters_response (str "10"))) sample_request)) = [[]].
Proof.
  apply (X14_nothing_collected opaque_stringify sample_env
           (upstream_returning (counters_response (str "10"))) sample_request
           {| buffer := [37; 80; 68; 70]%N |} (str "secret")
           (counters_response (str "10")) (JObject [(str "index", JNumber (str "0"))])).
  - reflexivity.
  - reflexivity.
  - discriminate.
  - reflexivity.
  - reflexivity.
  - reflexivity.
  - reflexivity.
Defined.

(** ** The salvage code *)

Lemma first_success_tried_length (text : jsstring) (strategies : list Strategy) :
  (List.length (snd (first_success text strategies)) <= List.length strategies)%nat.
Proof.
  induction strategies as [|s rest IH]; simpl; [lia|].
  destruct (s text) as [t|]; [|lia].
  destruct (JSON_parse t); [simpl; lia|].
  destruct (first_success text rest). simpl in *. lia.
Qed.

(** X15. The salvage code calls the parser at least once and at most three
    times, and the first text it parses is the whole joined text. *)
Theorem X15_between_one_and_three_parses (text : jsstring) :
  exists more,
    parse_attempts (snd (parse_with_salvage text)) = text :: more /\
    (List.length more <= 2)%nat.
Proof.
  pose proof (parse_with_salvage_chain text) as H.
  change (first_success text salvage_strategies)
    with (match JSON_parse text with
          | Normal v => (Some v, [text])
          | Throw _ =>
              let (r, tried) :=
                first_success text [outer_brace_extraction; trailing_truncation_recovery] in
              (r, text :: tried)
          end) in H.
  destruct (JSON_parse text) as [v|e].
  - apply pair_equal_spec in H as [H1 H2]. exists []. rewrite H2.
    split; [reflexivity | simpl; lia].
  - pose proof (first_success_tried_length text
                  [outer_brace_extraction; trailing_truncation_recovery]) as Hlen.
    destruct (first_success text [outer_brace_extraction; trailing_truncation_recovery])
      as [r tried].
    apply pair_equal_spec in H as [H1 H2]. exists tried. rewrite H2.
    split; [reflexivity|].
    simpl in Hlen. exact Hlen.
Qed.

(** X16. On a text without a right brace the heuristics do not apply: the
    only parse is the direct one and its outcome is the result. *)
Theorem X16_no_right_brace_no_salvage (text : jsstring) :
  ~ In RBRACE text ->
  fst (parse_with_salvage text) = JSON_parse text /\
  parse_attempts (snd (parse_with_salvage text)) = [text].
Proof.
  intros Hnone.
  assert (Hlast : lastIndexOf text RBRACE = -1).
  { rewrite lastIndexOf_position. now rewrite (last_position_absent _ _ Hnone). }
  unfold parse_with_salvage, try_JSON_parse, console, bind, emit, ret.
  rewrite Hlast. rewrite Z.eqb_refl. rewrite andb_false_r. simpl.
  destruct (JSON_parse text) as [v|e] eqn:E; [now split|].
  simpl. split; [|reflexivity].
  now rewrite (JSON_parse_Throw _ _ E).
Qed.

(** X16 at work: a text without braces. *)
Lemma X16_plain_number :
  fst (parse_with_salvage (str "42")) = JSON_parse (str "42") /\
  parse_attempts (snd (parse_with_salvage (str "42"))) = [str "42"].
Proof.
  apply (X16_no_right_brace_no_salvage (str "42")).
  intros H. simpl in H.
  destruct H as [H|[H|[]]]; discriminate H.
Defined.

(** X17. Whatever the salvage code returns as a value was parsed from the
    whole text or from the span between its first left brace and its last
    right brace; it is never the parse of anything else. *)
Theorem X17_salvaged_value_source (text : jsstring) (v : Json) :
  fst (parse_with_salvage text) = Normal v ->
  JSON_parse text = Normal v \/
  (indexOf text LBRACE <> -1 /\
   lastIndexOf text RBRACE > indexOf text LBRACE /\
   JSON_parse (slice text (indexOf text LBRACE) (lastIndexOf text RBRACE + 1)) = Normal v).
Proof. apply parse_with_salvage_source. Qed.

(** X17 at work: an object followed by prose, found by the outer-brace span. *)
Lemma X17_object_then_prose :
  JSON_parse (jsq "{'a':1} as requested") = Normal (JObject [(str "a", JNumber (str "1"))])
  \/
  (indexOf (jsq "{'a':1} as requested") LBRACE <> -1 /\
   lastIndexOf (jsq "{'a':1} as requested") RBRACE
   > indexOf (jsq "{'a':1} as requested") LBRACE /\
   JSON_parse (slice (jsq "{'a':1} as requested")
                 (indexOf (jsq "{'a':1} as requested") LBRACE)
                 (lastIndexOf (jsq "{'a':1} as requested") RBRACE + 1))
   = Normal (JObject [(str "a", JNumber (str "1"))])).
Proof.
  apply (X17_salvaged_value_source (jsq "{'a':1} as requested")
           (JObject [(str "a", JNumber (str "1"))])).
  reflexivity.
Defined.

(** ** The upstream call and what is collected from its answer *)

(** X18. With the model, the output limit and the timeout left unset (or
    empty) in the environment, the call goes to the model gemini-2.5-flash
    with the key in the query string, asks for at most 65535 output tokens,
    carries the upload in base64, and is given a timeout of 220000 ms. *)
Theorem X18_default_call_settings
    (JSON_stringify : Json -> jsstring) (env : Env) (axios_post : Upstream)
    (req : Request) (f : File) (key : jsstring) :
  file req = Some f ->
  GEMINI_API_KEY env = Some key -> key <> [] ->
  GEMINI_MODEL env = None \/ GEMINI_MODEL env = Some [] ->
  MAX_OUTPUT_TOKENS env = None \/ MAX_OUTPUT_TOKENS env = Some [] ->
  AXIOS_TIMEOUT_MS env = None \/ AXIOS_TIMEOUT_MS env = Some [] ->
  exists rest,
    snd (process_pdf JSON_stringify env axios_post req)
    = EvToBase64 (buffer f)
      :: EvAxiosPost
           (str "https://generativelanguage.googleapis.com/v1beta/models/gemini-2.5-flash:generateContent?key="
            ++ key)
           {| parts :=
                [TextPart (str "Extract structured data from this PDF according to the provided schema.");
                 InlineData (str "application/pdf") (toBase64 (buffer f));
                 TextPart (JSON_stringify (instructions_and_schema server_instructions))];
              generationConfig :=
                {| maxOutputTokens := Int 65535;
                   temperature := str "0.1";
                   responseMimeType := str "application/json" |} |}
           {| content_type := str "application/json"; timeout := Some (Int 220000) |}
      :: rest.
Proof.
  intros Hf Hk Hne Hm Ho Ht. rewrite process_pdf_run, Hf, Hk.
  destruct key as [|c k]; [congruence|]. cbv zeta. cbn [snd].
  eexists. f_equal. f_equal.
  unfold upstream_url, upstream_payload, upstream_config, build_payload.
  destruct Hm as [-> | ->]; destruct Ho as [-> | ->]; destruct Ht as [-> | ->];
    reflexivity.
Qed.

(** X18 at work: the sample environment sets the key only. *)
Lemma X18_sample_call :
  exists rest,
    snd (process_pdf opaque_stringify sample_env (upstream_returning scenario_response)
           sample_request)
    = EvToBase64 [37; 80; 68; 70]%N
      :: EvAxiosPost
           (str "https://generativelanguage.googleapis.com/v1beta/models/gemini-2.5-flash:generateContent?key="
            ++ str "secret")
           {| parts :=
                [TextPart (str "Extract structured data from this PDF according to the provided schema.");
                 InlineData (str "application/pdf") (toBase64 [37; 80; 68; 70]%N);
                 TextPart (opaque_stringify (instructions_and_schema server_instructions))];
              generationConfig :=
                {| maxOutputTokens := Int 65535;
                   temperature := str "0.1";
                   responseMimeType := str "application/json" |} |}
           {| content_type := str "application/json"; timeout := Some (Int 220000) |}
      :: rest.
Proof.
  apply (X18_default_call_settings opaque_stringify sample_env
           (upstream_returning scenario_response) sample_request
           {| buffer := [37; 80; 68; 70]%N |} (str "secret")).
  - reflexivity.
  - reflexivity.
  - discriminate.
  - now left.
  - now left.
  - now left.
Defined.

Lemma lookup_split (k : jsstring) (props : list (jsstring * Json)) (v : Json) :
  lookup k props = Some v ->
  exists before after, props = before ++ (k, v) :: after.
Proof.
  induction props as [|[k0 v0] r IH]; simpl; [discriminate|].
  destruct (jsstring_eqb k0 k) eqn:E.
  - intros [= ->]. apply jsstring_eqb_eq in E. subst k0. now exists [], r.
  - intros H. destruct (IH H) as (b & a & ->). now exists ((k0, v0) :: b), a.
Qed.

(** X19. When the candidates of a response are an array, the fragments of its
    first element are collected twice: once from the candidate itself and
    once more, as one block, from the walk over the whole response.  The
    pieces collected are at least twice those of the candidate. *)
Theorem X19_candidate_fragments_are_collected_twice
    (props : list (jsstring * Json)) (candidate : Json) (others : list Json) :
  lookup (str "candidates") props = Some (JArray (candidate :: others)) ->
  first_candidate (JObject props) = Some candidate /\
  (exists before after,
      collectTextPieces (JObject props) (collectTextPieces candidate [])
      = collectTextPieces candidate [] ++ before
        ++ collectTextPieces candidate [] ++ after) /\
  (2 * List.length (collectTextPieces candidate [])
   <= List.length (collectTextPieces (JObject props) (collectTextPieces candidate [])))%nat.
Proof.
  intros Hl.
  assert (Hblock : exists before after,
             collectTextPieces (JObject props) (collectTextPieces candidate [])
             = collectTextPieces candidate [] ++ before
               ++ collectTextPieces candidate [] ++ after).
  { destruct (lookup_split _ _ _ Hl) as (b & a & ->).
    exists (flat_map (fun kv => keyed_push (fst kv) (snd kv)
                                ++ collectTextPieces (snd kv) []) b),
      (flat_map (fun el => collectTextPieces el []) others
       ++ flat_map (fun kv => keyed_push (fst kv) (snd kv)
                              ++ collectTextPieces (snd kv) []) a).
    rewrite collect_object_flat, flat_map_app. cbn [flat_map fst snd].
    rewrite collect_array_flat. cbn [flat_map app keyed_push].
    now rewrite <- !app_assoc. }
  split; [|split; [exact Hblock|]].
  - unfold first_candidate, get. now rewrite Hl.
  - destruct Hblock as (b & a & ->). rewrite !length_app. lia.
Qed.

(** X19 at work: the response of the end-to-end scenario. *)
Lemma X19_scenario_candidate :
  first_candidate scenario_response = Some scenario_candidate /\
  (exists before after,
      collectTextPieces scenario_response (collectTextPieces scenario_candidate [])
      = collectTextPieces scenario_candidate [] ++ before
        ++ collectTextPieces scenario_candidate [] ++ after) /\
  (2 * List.length (collectTextPieces scenario_candidate [])
   <= List.length
        (collectTextPieces scenario_response (collectTextPieces scenario_candidate [])))%nat.
Proof.
  apply (X19_candidate_fragments_are_collected_twice
           [(str "candidates", JArray [scenario_candidate])] scenario_candidate []).
  reflexivity.
Defined.

(** ** The earlier variants of the handler *)

Lemma process_pdf_direct_resolved
    (JSON_stringify : Json -> jsstring) (Number_toString : jsstring -> jsstring)
    (variant : Variant) (env : Env) (axios_post : Upstream) (req : Request)
    (f : File) (data : Json) :
  file req = Some f ->
  (forall url payload config, axios_post url payload config = Resolved data) ->
  fst (process_pdf_direct JSON_stringify Number_toString variant env axios_post req)
  = match text_part data with
    | None => direct_failure
    | Some textContent =>
        match JSON_parse (ToString Number_toString textContent) with
        | Normal extractedJSON => {| status := 200; body := ExtractedJSON extractedJSON |}
        | Throw _ => direct_failure
        end
    end /\
  parse_attempts
    (snd (process_pdf_direct JSON_stringify Number_toString variant env axios_post req))
  = match text_part data with
    | None => []
    | Some textContent => [ToString Number_toString textContent]
    end.
Proof.
  intros Hf Hup. unfold process_pdf_direct, direct_failure. rewrite Hf.
  unfold bind, emit, console, ret, try_JSON_parse. rewrite Hup.
  destruct (text_part data) as [textContent|]; [|split; reflexivity].
  destruct (variant_logs_raw_text variant);
    destruct (JSON_parse (ToString Number_toString textContent)); split; reflexivity.
Qed.

(** X20. In every earlier variant a request without an uploaded document is
    answered 400 at once, with no effect at all. *)
Theorem X20_variants_reject_missing_document
    (JSON_stringify : Json -> jsstring) (Number_toString : jsstring -> jsstring)
    (variant : Variant) (env : Env) (axios_post : Upstream) (req : Request) :
  file req = None ->
  process_pdf_direct JSON_stringify Number_toString variant env axios_post req
  = ({| status := 400; body := ErrorOnly (str "No PDF file uploaded.") |}, []).
Proof. apply process_pdf_direct_missing_document. Qed.

(** X20 at work: the first variant and a request without a file. *)
Lemma X20_part_000_without_file :
  process_pdf_direct opaque_stringify (fun literal => literal) part_000 sample_env
    (upstream_returning scenario_response) no_file_request
  = ({| status := 400; body := ErrorOnly (str "No PDF file uploaded.") |}, []).
Proof.
  apply (X20_variants_reject_missing_document opaque_stringify (fun literal => literal)
           part_000 sample_env (upstream_returning scenario_response) no_file_request).
  reflexivity.
Defined.

(** X21. An earlier variant answers 200 with the parsed text of the first
    part of the first candidate whenever that text is a string holding valid
    JSON, after exactly one parse. *)
Theorem X21_variants_return_the_text_part
    (JSON_stringify : Json -> jsstring) (Number_toString : jsstring -> jsstring)
    (variant : Variant) (env : Env) (axios_post : Upstream) (req : Request)
    (f : File) (data : Json) (text : jsstring) (v : Json) :
  file req = Some f ->
  (forall url payload config, axios_post url payload config = Resolved data) ->
  text_part data = Some (Some (JString text)) ->
  JSON_parse text = Normal v ->
  fst (process_pdf_direct JSON_stringify Number_toString variant env axios_post req)
  = {| status := 200; body := ExtractedJSON v |} /\
  parse_attempts
    (snd (process_pdf_direct JSON_stringify Number_toString variant env axios_post req))
  = [text].
Proof.
  intros Hf Hup Htext Hparse.
  destruct (process_pdf_direct_resolved JSON_stringify Number_toString variant env
              axios_post req f data Hf Hup) as [H1 H2].
  rewrite H1, H2, Htext. simpl ToString. now rewrite Hparse.
Qed.

(** X21 at work: the third variant on the response of the end-to-end scenario. *)
Lemma X21_part_002_on_the_scenario :
  fst (process_pdf_direct opaque_stringify (fun literal => literal) part_002 sample_env
         (upstream_returning scenario_response) sample_request)
  = {| status := 200; body := ExtractedJSON scenario_statement |} /\
  parse_attempts
    (snd (process_pdf_direct opaque_stringify (fun literal => literal) part_002 sample_env
            (upstream_returning scenario_response) sample_request))
  = [scenario_text].
Proof.
  apply (X21_variants_return_the_text_part opaque_stringify (fun literal => literal)
           part_002 sample_env (upstream_returning scenario_response) sample_request
           {| buffer := [37; 80; 68; 70]%N |} scenario_response scenario_text
           scenario_statement); reflexivity.
Defined.

(** X22. A response object without candidates, or with an empty list of
    them, makes an earlier variant fail while reading the text part: it
    answers the bare 500 body and parses nothing. *)
Theorem X22_variants_fail_without_candidates
    (JSON_stringify : Json -> jsstring) (Number_toString : jsstring -> jsstring)
    (variant : Variant) (env : Env) (axios_post : Upstream) (req : Request)
    (f : File) (props : list (jsstring * Json)) :
  file req = Some f ->
  (forall url payload config, axios_post url payload config = Resolved (JObject props)) ->
  lookup (str "candidates") props = None \/
  lookup (str "candidates") props = Some (JArray []) ->
  fst (process_pdf_direct JSON_stringify Number_toString variant env axios_post req)
  = direct_failure /\
  parse_attempts
    (snd (process_pdf_direct JSON_stringify Number_toString variant env axios_post req))
  = [].
Proof.
  intros Hf Hup Hc.
  destruct (process_pdf_direct_resolved JSON_stringify Number_toString variant env
              axios_post req f (JObject props) Hf Hup) as [H1 H2].
  rewrite H1, H2.
  assert (Ht : text_part (JObject props) = None).
  { unfold text_part. cbn [access member]. destruct Hc as [-> | ->]; reflexivity. }
  now rewrite Ht.
Qed.

(** X22 at work: an empty response object. *)
Lemma X22_part_002_on_empty_object :
  fst (process_pdf_direct opaque_stringify (fun literal => literal) part_002 sample_env
         (upstream_returning (JObject [])) sample_request)
  = direct_failure /\
  parse_attempts
    (snd (process_pdf_direct opaque_stringify (fun literal => literal) part_002 sample_env
            (upstream_returning (JObject [])) sample_request))
  = [].
Proof.
  apply (X22_variants_fail_without_candidates opaque_stringify (fun literal => literal)
           part_002 sample_env (upstream_returning (JObject [])) sample_request
           {| buffer := [37; 80; 68; 70]%N |} []).
  - reflexivity.
  - reflexivity.
  - now left.
Defined.

(** X23. An earlier variant does not check that the text part is a string: a
    text part that is null or a boolean is converted to its name, parses, and
    is answered 200 with that value; a missing text part is converted to the
    word undefined, which does not parse, and is answered 500. *)
Theorem X23_variants_coerce_the_text_part
    (JSON_stringify : Json -> jsstring) (Number_toString : jsstring -> jsstring)
    (variant : Variant) (env : Env) (axios_post : Upstream) (req : Request)
    (f : File) (data : Json) :
  file req = Some f ->
  (forall url payload config, axios_post url payload config = Resolved data) ->
  let r := fst (process_pdf_direct JSON_stringify Number_toString variant env
                  axios_post req) in
  (text_part data = Some (Some JNull) ->
   r = {| status := 200; body := ExtractedJSON JNull |}) /\
  (forall b, text_part data = Some (Some (JBool b)) ->
             r = {| status := 200; body := ExtractedJSON (JBool b) |}) /\
  (text_part data = Some None -> r = direct_failure).
Proof.
  intros Hf Hup r. subst r.
  destruct (process_pdf_direct_resolved JSON_stringify Number_toString variant env
              axios_post req f data Hf Hup) as [H1 _].
  rewrite H1. repeat split.
  - intros ->. reflexivity.
  - intros b ->. destruct b; reflexivity.
  - intros ->. reflexivity.
Qed.

(** X23 at work: a text part that is null. *)
Lemma X23_part_000_on_null_text :
  fst (process_pdf_direct opaque_stringify (fun literal => literal) part_000 sample_env
         (upstream_returning
            (JObject [(str "candidates",
                       JArray [JObject [(str "content",
                         JObject [(str "parts",
                           JArray [JObject [(str "text", JNull)]])])]])]))
         sample_request)
  = {| status := 200; body := ExtractedJSON JNull |}.
Proof.
  exact (proj1 (X23_variants_coerce_the_text_part opaque_stringify (fun literal => literal)
                  part_000 sample_env
                  (upstream_returning
                     (JObject [(str "candidates",
                                JArray [JObject [(str "content",
                                  JObject [(str "parts",
                                    JArray [JObject [(str "text", JNull)]])])]])]))
                  sample_request {| buffer := [37; 80; 68; 70]%N |}
                  (JObject [(str "candidates",
                             JArray [JObject [(str "content",
                               JObject [(str "parts",
                                 JArray [JObject [(str "text", JNull)]])])]])])
                  eq_refl (fun _ _ _ => eq_refl))
           eq_refl).
Defined.

(** X25. An earlier variant does not check the API key: with an upload and no
    key in the environment it still encodes the upload and calls the model of
    the variant, with the word undefined as the key, a limit of 8192 output
    tokens and no timeout. *)
Theorem X25_variants_call_without_a_key
    (JSON_stringify : Json -> jsstring) (Number_toString : jsstring -> jsstring)
    (variant : Variant) (env : Env) (axios_post : Upstream) (req : Request) (f : File) :
  file req = Some f ->
  GEMINI_API_KEY env = None ->
  exists rest,
    snd (process_pdf_direct JSON_stringify Number_toString variant env axios_post req)
    = EvToBase64 (buffer f)
      :: EvAxiosPost
           (str "https://generativelanguage.googleapis.com/v1beta/models/"
            ++ variant_model variant ++ str ":generateContent?key=undefined")
           (build_payload JSON_stringify (variant_instructions variant)
              (toBase64 (buffer f)) (Int 8192))
           {| content_type := str "application/json"; timeout := None |}
      :: rest /\
    upstream_calls rest = 0%nat.
Proof.
  intros Hf Hk. unfold process_pdf_direct. rewrite Hf, Hk.
  unfold bind, emit, console, ret, try_JSON_parse.
  destruct (axios_post _ _ _) as [data|rd msg].
  - destruct (text_part data) as [textContent|].
    + destruct (variant_logs_raw_text variant);
        destruct (JSON_parse (ToString Number_toString textContent));
        eexists; split; reflexivity.
    + eexists; split; reflexivity.
  - eexists; split; reflexivity.
Qed.

(** X25 at work: the third variant without a key. *)
Lemma X25_part_002_without_key :
  exists rest,
    snd (process_pdf_direct opaque_stringify (fun literal => literal) part_002
           {| GEMINI_API_KEY := None; GEMINI_MODEL := None;
              MAX_OUTPUT_TOKENS := None; AXIOS_TIMEOUT_MS := None |}
           (upstream_returning scenario_response) sample_request)
    = EvToBase64 [37; 80; 68; 70]%N
      :: EvAxiosPost
           (str "https://generativelanguage.googleapis.com/v1beta/models/"
            ++ str "gemini-1.5-flash" ++ str ":generateContent?key=undefined")
           (build_payload opaque_stringify (variant_instructions part_002)
              (toBase64 [37; 80; 68; 70]%N) (Int 8192))
           {| content_type := str "application/json"; timeout := None |}
      :: rest /\
    upstream_calls rest = 0%nat.
Proof.
  apply (X25_variants_call_without_a_key opaque_stringify (fun literal => literal)
           part_002
           {| GEMINI_API_KEY := None; GEMINI_MODEL := None;
              MAX_OUTPUT_TOKENS := None; AXIOS_TIMEOUT_MS := None |}
           (upstream_returning scenario_response) sample_request
           {| buffer := [37; 80; 68; 70]%N |}); reflexivity.
Defined.

(** ** The usage metadata *)

(** X24. The usage value reported is never a falsy value other than null: a
    [usageMetadata] that is missing or falsy gives way to a truthy [usage]
    property, and to null when there is none. *)
Theorem X24_usage_is_truthy_or_null (data : Json) :
  (usage_of data = JNull \/ truthy (usage_of data) = true) /\
  (forall u, get data (str "usageMetadata") = Some u -> truthy u = true ->
             usage_of data = u) /\
  (get data (str "usageMetadata") = None \/
   (exists u, get data (str "usageMetadata") = Some u /\ truthy u = false) ->
   usage_of data
   = match get data (str "usage") with
     | Some w => if truthy w then w else JNull
     | None => JNull
     end).
Proof.
  rewrite usage_of_cases. cbv zeta. repeat split.
  - destruct (get data (str "usageMetadata")) as [u|];
      [destruct (truthy u) eqn:Eu; [now right|]|];
      (destruct (get data (str "usage")) as [w|]; [|now left];
       destruct (truthy w) eqn:Ew; [now right | now left]).
  - intros u -> Hu. now rewrite Hu.
  - intros [-> | (u & -> & Hu)]; rewrite ?Hu; reflexivity.
Qed.

(** X24 at work: a zero usageMetadata gives way to the usage property. *)
Lemma X24_usage_property_is_the_fallback :
  usage_of (JObject [(str "usageMetadata", JNumber (str "0"));
                     (str "usage", JObject [(str "total", JNumber (str "7"))])])
  = JObject [(str "total", JNumber (str "7"))].
Proof.
  exact (proj2 (proj2 (X24_usage_is_truthy_or_null
                         (JObject [(str "usageMetadata", JNumber (str "0"));
                                   (str "usage",
                                    JObject [(str "total", JNumber (str "7"))])])))
           (or_intror (ex_intro _ (JNumber (str "0")) (conj eq_refl eq_refl)))).
Defined.
